(** * Interior-design agent: the React client and the session pipeline

    A shallow embedding of the TypeScript client under [frontend/src]
    ([App.tsx], [components/AgentProgress.tsx],
    [components/ResultsSection.tsx]) together with the properties the
    specification states about it.

    Conventions.
    - JavaScript strings are Rocq [string]s (UTF-8 bytes).  Every string the
      client compares or searches for is ASCII, so byte-wise equality and
      substring search agree with the UTF-16 ones.
    - JavaScript numbers that arrive through JSON are rationals ([Q]); an
      HTTP status code is an integer ([Z]).
    - [T | null] is [option T].
    - Effectful code (React state setters, axios requests, toasts, the
      console, localStorage) runs in the monad [App.M]: a world is threaded
      through, every effect is appended to a trace, and a thrown exception is
      an outcome. *)

From Stdlib Require Import ZArith QArith Qround String Ascii List Bool Lia.
From Stdlib Require Import Lqa.
From stdpp Require Import base option list gmap strings.

Set Warnings "-register-all".
Local Open Scope string_scope.
Local Open Scope list_scope.

(** ** JavaScript built-ins used by the client *)

Module JS.

(** [String.prototype.includes]: does [needle] occur in [s]? *)
Fixpoint includes (needle s : string) : bool :=
  String.prefix needle s ||
  match s with
  | EmptyString => false
  | String _ rest => includes needle rest
  end.

(** [Array.prototype.slice(start)] with its relative-index rule: a negative
    [start] counts from the end and is clamped at 0, a [start] past the end
    is clamped at the length.  The result is a new array. *)
Definition slice {A} (start : Z) (l : list A) : list A :=
  let len := Z.of_nat (length l) in
  let k := if (start <? 0)%Z then Z.max (len + start) 0 else Z.min start len in
  drop (Z.to_nat k) l.

(** Values of type [any] that come out of [JSON.parse]. *)
Inductive json :=
| JNull
| JBool (b : bool)
| JNum (q : Q)
| JStr (s : string)
| JArr (xs : list json)
| JObj (props : list (string * json)).

(** Own-property lookup in a parsed object ([None] is [undefined]). *)
Fixpoint own_prop (k : string) (props : list (string * json)) : option json :=
  match props with
  | [] => None
  | (k', v) :: rest => if String.eqb k k' then Some v else own_prop k rest
  end.

(** Truthiness of the values the client tests. *)
Definition truthy_string (s : string) : bool := negb (String.eqb s "").
Definition truthy_number (q : Q) : bool := negb (Qeq_bool q 0).
Definition truthy_opt_string (o : option string) : bool :=
  match o with Some s => truthy_string s | None => false end.
Definition truthy_opt_number (o : option Q) : bool :=
  match o with Some q => truthy_number q | None => false end.

(** The names every object literal inherits from [Object.prototype]: a
    bracket lookup [obj[k]] walks the prototype chain, so these keys are
    found even when [obj] has no such own property. *)
Definition object_prototype_methods : list string :=
  [ "constructor"; "hasOwnProperty"; "isPrototypeOf"; "propertyIsEnumerable";
    "toLocaleString"; "toString"; "valueOf";
    "__defineGetter__"; "__defineSetter__"; "__lookupGetter__"; "__lookupSetter__" ].

End JS.

(** ** Payloads exchanged with the backend ([App.tsx], lines 13-57) *)

Module Api.
Import JS.

Record AgentMessage := {
  timestamp : string;
  message : string
}.

Record AgentStatus := {
  status : string;
  current_step : string;
  steps_completed : list string;
  progress_percentage : Q;
  messages : list AgentMessage;
  errors : list string
}.

Record DesignPlanResponse := {
  plan : string;
  plan_status : string
}.

Record Position := { pos_x : Q; pos_y : Q }.

Record FurnitureItem := {
  title : string;
  price : option string;
  google_link : option string;
  direct_link : option string;
  source : option string;
  delivery : option string;
  product_rating : option Q;
  product_reviews : option Q;
  store_rating : option Q;
  store_reviews : option Q;
  category : option string;
  position : option Position;
  image_url : option string;
  local_image_path : option string
}.

Record FinalResults := {
  session_id : string;
  original_image : string;
  designed_image : string;
  design_plan : json;
  total_cost_estimate : Q;
  furniture_items : list FurnitureItem;
  completion_time : Q;
  design_description : string
}.

(** The body [handleUpload] expects from [POST /api/upload]. *)
Record UploadResponse := {
  success : bool;
  upload_session_id : string;
  file_path : string;
  filename : string
}.

(** A browser [File]. *)
Record File := { file_name : string; file_content : string }.

(** What axios rejects with: the response of a failed request, when there
    was one.  The body is typed [any] by the client. *)
Record ErrorResponse := {
  err_status : Z;
  err_data : json
}.

Inductive Error :=
| AxiosError (response : option ErrorResponse)
| TypeError (msg : string).

(** The settled value of an awaited request. *)
Inductive Reply (A : Type) :=
| Resolve (data : A)
| Reject (e : Error).
Arguments Resolve {A} data.
Arguments Reject {A} e.

(** The backend as the client sees it during one handler: one answer per
    endpoint and path parameter. *)
Record Server := {
  post_upload : File -> Reply UploadResponse;
  post_start : string -> Reply unit;
  get_status : string -> Reply AgentStatus;
  get_plan : string -> Reply DesignPlanResponse;
  get_results : string -> Reply FinalResults;
  delete_agent : string -> Reply unit
}.

End Api.

(** ** The application component ([App.tsx]) *)

Module App.
Import JS Api.

(** React state of [App] (the five [useState] cells). *)
Record AppState := {
  sessionId : option string;
  agentStatus : option AgentStatus;
  designPlan : string;
  finalResults : option FinalResults;
  isPolling : bool
}.

Inductive Method := GET | POST | DELETE.

Record Request := {
  method : Method;
  url : string;
  form_data : list (string * File);
  headers : list (string * string)
}.

Inductive ToastKind := ToastSuccess | ToastError.

(** Every effect a handler performs, in program order. *)
Inductive Event :=
| Http (r : Request)
| SetSessionId (v : option string)
| SetAgentStatus (v : option AgentStatus)
| SetDesignPlan (v : string)
| SetFinalResults (v : option FinalResults)
| SetIsPolling (v : bool)
| LocalStorageRemoveItem (key : string)
| ConsoleError (label : string) (e : Error)
| Toast (k : ToastKind) (text : string).

Record World := {
  app : AppState;
  localStorage : gmap string string;
  trace : list Event
}.

Inductive Outcome (A : Type) :=
| Ok (a : A)
| Throw (e : Error).
Arguments Ok {A} a.
Arguments Throw {A} e.

(** Handlers: world passing, with exceptions. Effects performed before a
    throw stay performed. *)
Definition M (A : Type) : Type := World -> Outcome A * World.

Definition ret {A} (a : A) : M A := fun w => (Ok a, w).

Definition bind {A B} (m : M A) (k : A -> M B) : M B :=
  fun w => match m w with
           | (Ok a, w') => k a w'
           | (Throw e, w') => (Throw e, w')
           end.

Definition throw {A} (e : Error) : M A := fun w => (Throw e, w).

Definition try_catch {A} (body : M A) (handler : Error -> M A) : M A :=
  fun w => match body w with
           | (Ok a, w') => (Ok a, w')
           | (Throw e, w') => handler e w'
           end.

#[export] Instance M_ret : MRet M := @ret.
#[export] Instance M_bind : MBind M := fun A B k m => bind m k.

Definition emit (ev : Event) : M unit :=
  fun w => (Ok tt, {| app := app w; localStorage := localStorage w;
                      trace := trace w ++ [ev] |}).

Definition update (f : AppState -> AppState) : M unit :=
  fun w => (Ok tt, {| app := f (app w); localStorage := localStorage w;
                      trace := trace w |}).

Definition setSessionId (v : option string) : M unit :=
  emit (SetSessionId v) ;;
  update (fun s => {| sessionId := v; agentStatus := agentStatus s;
                      designPlan := designPlan s; finalResults := finalResults s;
                      isPolling := isPolling s |}).

Definition setAgentStatus (v : option AgentStatus) : M unit :=
  emit (SetAgentStatus v) ;;
  update (fun s => {| sessionId := sessionId s; agentStatus := v;
                      designPlan := designPlan s; finalResults := finalResults s;
                      isPolling := isPolling s |}).

Definition setDesignPlan (v : string) : M unit :=
  emit (SetDesignPlan v) ;;
  update (fun s => {| sessionId := sessionId s; agentStatus := agentStatus s;
                      designPlan := v; finalResults := finalResults s;
                      isPolling := isPolling s |}).

Definition setFinalResults (v : option FinalResults) : M unit :=
  emit (SetFinalResults v) ;;
  update (fun s => {| sessionId := sessionId s; agentStatus := agentStatus s;
                      designPlan := designPlan s; finalResults := v;
                      isPolling := isPolling s |}).

Definition setIsPolling (v : bool) : M unit :=
  emit (SetIsPolling v) ;;
  update (fun s => {| sessionId := sessionId s; agentStatus := agentStatus s;
                      designPlan := designPlan s; finalResults := finalResults s;
                      isPolling := v |}).

Definition read : M AppState := fun w => (Ok (app w), w).

Definition storage_delete (key : string) : M unit :=
  fun w => (Ok tt, {| app := app w; localStorage := delete key (localStorage w);
                      trace := trace w |}).

Definition localStorage_removeItem (key : string) : M unit :=
  emit (LocalStorageRemoveItem key) ;;
  storage_delete key.

Definition console_error (label : string) (e : Error) : M unit :=
  emit (ConsoleError label e).

Definition toast (k : ToastKind) (text : string) : M unit := emit (Toast k text).

(** [await axios.<method>(...)]: the request goes out, then the promise
    settles with the server's reply. *)
Definition await {A} (r : Request) (reply : Reply A) : M A :=
  emit (Http r) ;;
  match reply with
  | Resolve d => ret d
  | Reject e => throw e
  end.

Section WithEnvironment.

(** [import.meta.env.VITE_API_URL], when the deployment sets it. *)
Variable VITE_API_URL : option string.
Variable srv : Server.

Definition API_URL : string :=
  match VITE_API_URL with
  | Some u => if truthy_string u then u else "http://localhost:8000"
  | None => "http://localhost:8000"
  end.

Definition status_request (sid : string) : Request :=
  {| method := GET; url := API_URL +:+ "/api/agent/status/" +:+ sid;
     form_data := []; headers := [] |}.

Definition plan_request (sid : string) : Request :=
  {| method := GET; url := API_URL +:+ "/api/agent/plan/" +:+ sid;
     form_data := []; headers := [] |}.

Definition results_request (sid : string) : Request :=
  {| method := GET; url := API_URL +:+ "/api/agent/results/" +:+ sid;
     form_data := []; headers := [] |}.

Definition upload_request (file : File) : Request :=
  {| method := POST; url := API_URL +:+ "/api/upload";
     form_data := [("file", file)];
     headers := [("Content-Type", "multipart/form-data")] |}.

Definition start_request (sid : string) : Request :=
  {| method := POST; url := API_URL +:+ "/api/agent/start/" +:+ sid;
     form_data := []; headers := [] |}.

Definition delete_request (sid : string) : Request :=
  {| method := DELETE; url := API_URL +:+ "/api/agent/" +:+ sid;
     form_data := []; headers := [] |}.

(** [error.response?.data?.detail]: [None] is [undefined]. Only a parsed
    object has a [detail] property. *)
Definition error_detail (e : Error) : option json :=
  match e with
  | AxiosError (Some r) =>
      match err_data r with
      | JObj props => own_prop "detail" props
      | _ => None
      end
  | _ => None
  end.

(** [detail?.includes('not found')]. The optional chain stops on
    [undefined] and [null]; a string searches for the substring, an array
    for an element equal to the string; any other value has no [includes]
    method and the call throws. *)
Definition detail_includes_not_found (detail : option json) : Outcome bool :=
  match detail with
  | None | Some JNull => Ok false
  | Some (JStr s) => Ok (includes "not found" s)
  | Some (JArr xs) =>
      Ok (existsb (fun x => match x with
                            | JStr s => String.eqb s "not found"
                            | _ => false
                            end) xs)
  | Some (JBool _) | Some (JNum _) | Some (JObj _) =>
      Throw (TypeError "error.response?.data?.detail?.includes is not a function")
  end.

(** [error.response?.status === 404]. *)
Definition error_status_is_404 (e : Error) : bool :=
  match e with
  | AxiosError (Some r) => (err_status r =? 404)%Z
  | _ => false
  end.

(** The condition of the [if] in the polling [catch] block (line 91);
    [||] does not evaluate its right operand when the left one is true. *)
Definition session_not_found (e : Error) : Outcome bool :=
  if error_status_is_404 e then Ok true
  else detail_includes_not_found (error_detail e).

(** The [try] block of the [setInterval] callback (lines 70-87), with the
    [sessionId] the effect closed over. *)
Definition poll_try (sid : string) : M unit :=
  statusRes ← await (status_request sid) (get_status srv sid);
  setAgentStatus (Some statusRes) ;;
  planRes ← await (plan_request sid) (get_plan srv sid);
  setDesignPlan (plan planRes) ;;
  if String.eqb (status statusRes) "completed" then
    resultsRes ← await (results_request sid) (get_results srv sid);
    setFinalResults (Some resultsRes) ;;
    setIsPolling false ;;
    toast ToastSuccess "Design completed!"
  else if String.eqb (status statusRes) "error" then
    setIsPolling false ;;
    toast ToastError "Agent encountered an error"
  else ret tt.

(** Its [catch] block (lines 88-97). An exception raised while the
    condition is evaluated leaves the block. *)
Definition poll_catch (error : Error) : M unit :=
  console_error "Polling error:" error ;;
  match session_not_found error with
  | Throw e => throw e
  | Ok true =>
      localStorage_removeItem "designSessionId" ;;
      setSessionId None ;;
      setIsPolling false ;;
      toast ToastError "Session expired. Please upload a new image."
  | Ok false => ret tt
  end.

Definition pollTick (sid : string) : M unit :=
  try_catch (poll_try sid) poll_catch.

(** The polling effect (lines 67-102): an interval runs while [sessionId]
    is truthy and [isPolling] holds; each firing runs [pollTick]. *)
Definition polling_interval (s : AppState) : option string :=
  match sessionId s with
  | Some sid => if truthy_string sid && isPolling s then Some sid else None
  | None => None
  end.

Definition handleUpload (file : File) : M unit :=
  try_catch
    (uploadRes ← await (upload_request file) (post_upload srv file);
     let newSessionId := upload_session_id uploadRes in
     setSessionId (Some newSessionId) ;;
     await (start_request newSessionId) (post_start srv newSessionId) ;;
     setIsPolling true ;;
     toast ToastSuccess "Agent started! Analyzing your room...")
    (fun error =>
       console_error "Upload error:" error ;;
       toast ToastError "Failed to upload image").

Definition resetAgent : M unit :=
  s ← read;
  match sessionId s with
  | Some sid =>
      if truthy_string sid then
        try_catch
          (await (delete_request sid) (delete_agent srv sid))
          (fun error => console_error "Reset error:" error)
      else ret tt
  | None => ret tt
  end ;;
  setSessionId None ;;
  setAgentStatus None ;;
  setDesignPlan "" ;;
  setFinalResults None ;;
  setIsPolling false.

End WithEnvironment.

(** *** Observations on a run of a handler *)

(** The events a handler appends to the trace when run from [w]. *)
Definition events_of {A} (m : M A) (w : World) : list Event :=
  drop (length (trace w)) (trace (m w).2).

(** The world a handler leaves behind. *)
Definition after {A} (m : M A) (w : World) : World := (m w).2.

(** The toast by which the polling callback announces an expired
    session (line 95). *)
Definition expired_toast : Event :=
  Toast ToastError "Session expired. Please upload a new image.".

(** [error.response?.status]. *)
Definition response_status (e : Error) : option Z :=
  match e with
  | AxiosError (Some r) => Some (err_status r)
  | _ => None
  end.

(** The body of the failed response is an object whose [detail] member is
    [v], that is, "detail" is bound to [v] and to nothing before it among the
    members of the body.  This is read off the response as it arrived. *)
Definition response_detail (e : Error) (v : json) : Prop :=
  exists r before rest,
    e = AxiosError (Some r) /\
    err_data r = JObj (before ++ ("detail", v) :: rest) /\
    "detail" ∉ before.*1.

(** The response status is 404, or the detail is a string that contains
    "not found". *)
Definition not_found_status_or_detail_string (e : Error) : Prop :=
  response_status e = Some 404%Z \/
  exists s pre post,
    response_detail e (JStr s) /\ s = pre +:+ "not found" +:+ post.

(** The same, or the detail is a list one of whose elements is the string
    "not found". *)
Definition expired_condition (e : Error) : Prop :=
  not_found_status_or_detail_string e \/
  exists xs, response_detail e (JArr xs) /\ JStr "not found" ∈ xs.

(** One of the requests of a polling tick for session [sid] is rejected
    with [e]: the status request, or the plan request after it, or the
    results request after a status of completed. *)
Definition polling_request_fails (srv : Server) (sid : string) (e : Error) : Prop :=
  get_status srv sid = Reject e \/
  exists s, get_status srv sid = Resolve s /\
    (get_plan srv sid = Reject e \/
     exists p, get_plan srv sid = Resolve p /\ status s = "completed" /\
               get_results srv sid = Reject e).

(** The two comparisons of the polling callback that end polling (lines 79
    and 84). *)
Definition ends_polling (s : string) : bool :=
  String.eqb s "completed" || String.eqb s "error".

End App.

(** ** React elements and mounting *)

Module React.

(** Values of element props. [PPercent q] is the template [`${q}%`]. *)
Inductive pval :=
| PStr (s : string)
| PNum (q : Q)
| PPercent (q : Q)
| PObj (fields : list (string * pval))
| PHandler (name : string).

(** What a component may put between tags. [CEmpty] stands for [null],
    [undefined], [true] and [false]; [CFunction] and [CObject] are values
    React does not accept as children. *)
Inductive child :=
| CText (s : string)
| CNum (q : Q)
| CEmpty
| CFunction (name : string)
| CObject
| CArray (items : list child)
| CElem (tag : string) (props : list (string * pval)) (children : list child).

Inductive html :=
| DText (s : string)
| DNum (q : Q)
| DNode (tag : string) (props : list (string * pval)) (children : list html).

(** Reconciliation of one child: strings and numbers become text, empty
    values and functions produce nothing (a function only logs a warning),
    arrays are flattened, and a plain object makes React throw
    "Objects are not valid as a React child" ([None]). *)
Fixpoint mount (c : child) : option (list html) :=
  let fix mount_all (cs : list child) : option (list html) :=
    match cs with
    | [] => Some []
    | c :: rest =>
        match mount c, mount_all rest with
        | Some d, Some ds => Some (d ++ ds)
        | _, _ => None
        end
    end in
  match c with
  | CText s => Some [DText s]
  | CNum q => Some [DNum q]
  | CEmpty => Some []
  | CFunction _ => Some []
  | CObject => None
  | CArray items => mount_all items
  | CElem tag props children =>
      match mount_all children with
      | Some ds => Some [DNode tag props ds]
      | None => None
      end
  end.

(** Mounting a list of children, as [mount] does for the children of an
    element. *)
Fixpoint mount_all (cs : list child) : option (list html) :=
  match cs with
  | [] => Some []
  | c :: rest =>
      match mount c, mount_all rest with
      | Some d, Some ds => Some (d ++ ds)
      | _, _ => None
      end
  end.

(** Rendering the child does not throw. *)
Definition mountable (c : child) : Prop := is_Some (mount c).

Definition children_of (c : child) : list child :=
  match c with
  | CElem _ _ children => children
  | CArray items => items
  | _ => []
  end.

(** [s && k(s)] for a nullable string: a falsy left operand is the value
    of the whole expression. *)
Definition and_string (o : option string) (k : string -> child) : child :=
  match o with
  | None => CEmpty
  | Some s => if JS.truthy_string s then k s else CText s
  end.

(** [n && k(n)] for a nullable number: [0] is falsy and is rendered. *)
Definition and_number (o : option Q) (k : Q -> child) : child :=
  match o with
  | None => CEmpty
  | Some q => if JS.truthy_number q then k q else CNum q
  end.

(** [n || d] for a nullable number. *)
Definition or_number (o : option Q) (d : Q) : Q :=
  match o with
  | None => d
  | Some q => if JS.truthy_number q then q else d
  end.

Definition className (c : string) : string * pval := ("className", PStr c).
Definition key (index : nat) : string * pval := ("key", PNum (inject_Z (Z.of_nat index))).

End React.

(** ** [components/AgentProgress.tsx] *)

Module AgentProgressView.
Import JS Api React.

(** Own properties of the [statusEmoji] object literal (lines 31-39). *)
Definition statusEmoji : gmap string string :=
  list_to_map
    [ ("idle", "💤"); ("analyzing", "🔍"); ("planning", "📝");
      ("shopping", "🛍️"); ("designing", "🎨"); ("completed", "✅");
      ("error", "❌") ].

(** What [obj[k]] evaluates to for an object literal with string-valued own
    properties. *)
Inductive looked_up :=
| FoundString (s : string)
| FoundFunction (name : string)
| FoundObject
| Undefined.

(** Bracket lookup on an object literal: own properties first, then
    [Object.prototype]: its methods, and the [__proto__] accessor, which
    yields [Object.prototype] itself. *)
Definition bracket (own : gmap string string) (k : string) : looked_up :=
  match own !! k with
  | Some v => FoundString v
  | None =>
      if String.eqb k "__proto__" then FoundObject
      else if existsb (String.eqb k) object_prototype_methods then FoundFunction k
      else Undefined
  end.

(** [statusEmoji[status.status] || '⏳'] as a child. *)
Definition emoji_child (status_name : string) : child :=
  match bracket statusEmoji status_name with
  | FoundString s => if truthy_string s then CText s else CText "⏳"
  | FoundFunction name => CFunction name
  | FoundObject => CObject
  | Undefined => CText "⏳"
  end.

(** [Math.round]: the nearest integer, halves towards positive infinity. *)
Definition Math_round (q : Q) : Z := Qfloor (q + (1 # 2))%Q.

(** The messages the activity log shows (line 79). *)
Definition shown_messages (s : AgentStatus) : list AgentMessage :=
  slice (-5) (messages s).

Section WithLocale.

(** [new Date(ts).toLocaleTimeString()], which depends on the browser's
    locale and time zone. *)
Variable toLocaleTimeString : string -> string.

Definition step_item (index : nat) (step : string) : child :=
  CElem "li"
    [ key index;
      ("initial", PObj [("opacity", PNum 0); ("x", PNum (-20 # 1))]);
      ("animate", PObj [("opacity", PNum 1); ("x", PNum 0)]);
      ("transition", PObj [("delay", PNum (inject_Z (Z.of_nat index) * (1 # 10))%Q)]) ]
    [ CText "✓ "; CText step ].

Definition message_item (index : nat) (msg : AgentMessage) : child :=
  CElem "div"
    [ key index; className "message-item";
      ("initial", PObj [("opacity", PNum 0); ("y", PNum 10)]);
      ("animate", PObj [("opacity", PNum 1); ("y", PNum 0)]);
      ("transition", PObj [("delay", PNum (inject_Z (Z.of_nat index) * (5 # 100))%Q)]) ]
    [ CElem "span" [className "message-time"]
        [CText (toLocaleTimeString (timestamp msg))];
      CElem "span" [className "message-text"] [CText (message msg)] ].

Definition error_item (index : nat) (error : string) : child :=
  CElem "div" [key index; className "error-item"] [CText "⚠️ "; CText error].

(** [status.errors.length > 0 && (...)] (lines 96-105). *)
Definition errors_section (errs : list string) : child :=
  if (0 <? length errs)%nat then
    CElem "div" [className "errors-section"]
      [ CElem "h4" [] [CText "Errors:"];
        CArray (imap error_item errs) ]
  else CEmpty.

Definition waiting_placeholder : child :=
  CElem "div" [className "agent-progress"]
    [CElem "h2" [] [CText "Waiting for agent to start..."]].

Definition AgentProgress (status_prop : option AgentStatus) : child :=
  match status_prop with
  | None => waiting_placeholder
  | Some st =>
      CElem "div" [className "agent-progress"]
        [ CElem "h2" [] [CText "Agent Progress"];
          CElem "div" [className "status-header"]
            [ CElem "span" [className "status-emoji"] [emoji_child (status st)];
              CElem "h3" [] [CText (current_step st)] ];
          CElem "div" [className "progress-bar-container"]
            [ CElem "div"
                [ className "progress-bar";
                  ("initial", PObj [("width", PNum 0)]);
                  ("animate", PObj [("width", PPercent (progress_percentage st))]);
                  ("transition", PObj [("duration", PNum (1 # 2))]) ]
                [];
              CElem "span" [className "progress-text"]
                [ CNum (inject_Z (Math_round (progress_percentage st))); CText "%" ] ];
          CElem "div" [className "steps-list"]
            [ CElem "h4" [] [CText "Steps Completed:"];
              CElem "ul" [] [CArray (imap step_item (steps_completed st))] ];
          CElem "div" [className "messages-log"]
            [ CElem "h4" [] [CText "Activity Log:"];
              CElem "div" [className "messages-container"]
                [CArray (imap message_item (shown_messages st))] ];
          errors_section (errors st) ]
  end.

End WithLocale.

End AgentProgressView.

(** ** [AgentProgress] with its arrays held by reference *)

Module AgentProgressHeap.
Import JS Api React AgentProgressView.

(** A JavaScript array in the heap. *)
Inductive array :=
| StringArray (items : list string)
| MessageArray (items : list AgentMessage)
| ElementArray (items : list child).

(** A new array: it is placed at a location that is not in use. *)
Definition alloc (a : array) (heap : gmap nat array) : nat * gmap nat array :=
  let r := fresh (dom heap) in (r, <[r := a]> heap).

(** [arr.slice(start)]: the result is a new array, [arr] is only read. *)
Definition array_slice (start : Z) (arr : nat) (heap : gmap nat array)
  : option (nat * gmap nat array) :=
  match heap !! arr with
  | Some (StringArray l) => Some (alloc (StringArray (slice start l)) heap)
  | Some (MessageArray l) => Some (alloc (MessageArray (slice start l)) heap)
  | Some (ElementArray l) => Some (alloc (ElementArray (slice start l)) heap)
  | None => None
  end.

(** [arr.map((x, index) => f index x)]: the result is a new array of
    elements, [arr] is only read. *)
Definition map_strings (f : nat -> string -> child) (arr : nat) (heap : gmap nat array)
  : option (nat * gmap nat array) :=
  match heap !! arr with
  | Some (StringArray l) => Some (alloc (ElementArray (imap f l)) heap)
  | _ => None
  end.

Definition map_messages (f : nat -> AgentMessage -> child) (arr : nat)
    (heap : gmap nat array) : option (nat * gmap nat array) :=
  match heap !! arr with
  | Some (MessageArray l) => Some (alloc (ElementArray (imap f l)) heap)
  | _ => None
  end.

(** [arr.length]. *)
Definition array_length (arr : nat) (heap : gmap nat array) : option nat :=
  match heap !! arr with
  | Some (StringArray l) => Some (length l)
  | Some (MessageArray l) => Some (length l)
  | Some (ElementArray l) => Some (length l)
  | None => None
  end.

(** The elements of an array handed to React as a child. *)
Definition elements (arr : nat) (heap : gmap nat array) : list child :=
  match heap !! arr with
  | Some (ElementArray l) => l
  | _ => []
  end.

(** The [status] prop as the object it is: strings and numbers by value,
    the three arrays by reference. *)
Record StatusObject := {
  status_field : string;
  current_step_field : string;
  steps_completed_ref : nat;
  progress_percentage_field : Q;
  messages_ref : nat;
  errors_ref : nat
}.

(** The snapshot an object holds in a heap. *)
Definition read_status (heap : gmap nat array) (o : StatusObject) : option AgentStatus :=
  match heap !! steps_completed_ref o, heap !! messages_ref o, heap !! errors_ref o with
  | Some (StringArray sc), Some (MessageArray ms), Some (StringArray es) =>
      Some {| status := status_field o; current_step := current_step_field o;
              steps_completed := sc;
              progress_percentage := progress_percentage_field o;
              messages := ms; errors := es |}
  | _, _, _ => None
  end.

Section WithLocale.

Variable toLocaleTimeString : string -> string.

(** [AgentProgress] (lines 22-108) with the array operations of its body
    carried out in the heap, in the order in which the JSX evaluates them:
    [steps_completed.map], [messages.slice(-5)], [.map] on the slice,
    [errors.length] and [errors.map]. *)
Definition AgentProgress_by_reference (status_prop : option StatusObject)
    (heap : gmap nat array) : option (child * gmap nat array) :=
  match status_prop with
  | None => Some (waiting_placeholder, heap)
  | Some st =>
      '(steps, heap1) ← map_strings step_item (steps_completed_ref st) heap;
      '(last, heap2) ← array_slice (-5) (messages_ref st) heap1;
      '(rows, heap3) ← map_messages (message_item toLocaleTimeString) last heap2;
      n ← array_length (errors_ref st) heap3;
      '(errors_child, heap4) ←
        (if (0 <? n)%nat then
           '(errs, heap4) ← map_strings error_item (errors_ref st) heap3;
           Some (CElem "div" [className "errors-section"]
                   [ CElem "h4" [] [CText "Errors:"];
                     CArray (elements errs heap4) ], heap4)
         else Some (CEmpty, heap3));
      Some
        (CElem "div" [className "agent-progress"]
           [ CElem "h2" [] [CText "Agent Progress"];
             CElem "div" [className "status-header"]
               [ CElem "span" [className "status-emoji"]
                   [emoji_child (status_field st)];
                 CElem "h3" [] [CText (current_step_field st)] ];
             CElem "div" [className "progress-bar-container"]
               [ CElem "div"
                   [ className "progress-bar";
                     ("initial", PObj [("width", PNum 0)]);
                     ("animate",
                        PObj [("width", PPercent (progress_percentage_field st))]);
                     ("transition", PObj [("duration", PNum (1 # 2))]) ]
                   [];
                 CElem "span" [className "progress-text"]
                   [ CNum (inject_Z (Math_round (progress_percentage_field st)));
                     CText "%" ] ];
             CElem "div" [className "steps-list"]
               [ CElem "h4" [] [CText "Steps Completed:"];
                 CElem "ul" [] [CArray (elements steps heap4)] ];
             CElem "div" [className "messages-log"]
               [ CElem "h4" [] [CText "Activity Log:"];
                 CElem "div" [className "messages-container"]
                   [CArray (elements rows heap4)] ];
             errors_child ],
         heap4)
  end.

End WithLocale.

(** The strings in a piece of mounted HTML, in document order; number
    children are left out. *)
Fixpoint text_content (d : html) : list string :=
  let fix all (ds : list html) : list string :=
    match ds with
    | [] => []
    | d' :: rest => text_content d' ++ all rest
    end in
  match d with
  | DText s => [s]
  | DNum _ => []
  | DNode _ _ children => all children
  end.

Fixpoint text_contents (ds : list html) : list string :=
  match ds with
  | [] => []
  | d :: rest => text_content d ++ text_contents rest
  end.

End AgentProgressHeap.

(** ** [components/ResultsSection.tsx] *)

Module ResultsSectionView.
Import JS Api React.

Section WithEnvironment.

Variable VITE_API_URL : option string.
(** [Number.prototype.toFixed(digits)]. *)
Variable toFixed : nat -> Q -> string.

Definition API_URL : string :=
  match VITE_API_URL with
  | Some u => if truthy_string u then u else "http://localhost:8000"
  | None => "http://localhost:8000"
  end.

(** One furniture card (lines 87-134). *)
Definition furniture_card (index : nat) (item : FurnitureItem) : child :=
  CElem "div"
    [ key index; className "furniture-card";
      ("initial", PObj [("opacity", PNum 0); ("y", PNum 20)]);
      ("animate", PObj [("opacity", PNum 1); ("y", PNum 0)]);
      ("transition", PObj [("delay", PNum (inject_Z (Z.of_nat index) * (1 # 10))%Q)]) ]
    [ and_string (image_url item) (fun u =>
        CElem "div" [className "furniture-image"]
          [ CElem "img"
              [ ("src", PStr (API_URL +:+ u)); ("alt", PStr (title item));
                ("onError", PHandler "hide image") ] [] ]);
      CElem "h4" [] [CText (title item)];
      and_string (source item) (fun v =>
        CElem "p" [className "furniture-source"] [CText "from "; CText v]);
      and_string (category item) (fun v =>
        CElem "p" [className "furniture-category"] [CText v]);
      and_string (price item) (fun v =>
        CElem "p" [className "furniture-price"] [CText v]);
      and_number (product_rating item) (fun r =>
        CElem "p" [className "furniture-rating"]
          [ CNum r; CText "⭐ ("; CNum (or_number (product_reviews item) 0);
            CText " reviews)" ]);
      and_string (delivery item) (fun v =>
        CElem "p" [className "furniture-delivery"] [CText v]);
      and_string (google_link item) (fun l =>
        CElem "a"
          [ ("href", PStr l); ("target", PStr "_blank");
            ("rel", PStr "noopener noreferrer"); className "product-link" ]
          [CText "View on Google Shopping →"]) ].

Definition ResultsSection (results : FinalResults) : child :=
  CElem "div"
    [ className "results-section";
      ("initial", PObj [("opacity", PNum 0)]);
      ("animate", PObj [("opacity", PNum 1)]);
      ("transition", PObj [("duration", PNum (1 # 2))]) ]
    [ CElem "h2" [] [CText "Final Design Results"];
      CElem "div" [className "image-comparison"]
        [ CElem "div" [className "image-container"]
            [ CElem "h3" [] [CText "Original Room"];
              CElem "img" [ ("src", PStr (API_URL +:+ original_image results));
                            ("alt", PStr "Original room") ] [] ];
          CElem "div" [className "image-container"]
            [ CElem "h3" [] [CText "Designed Room"];
              CElem "img" [ ("src", PStr (API_URL +:+ designed_image results));
                            ("alt", PStr "Designed room") ] [] ] ];
      CElem "div" [className "design-stats"]
        [ CElem "div" [className "stat-item"]
            [ CElem "h4" [] [CText "Total Cost Estimate"];
              CElem "p" [className "stat-value"]
                [CText "$"; CText (toFixed 2 (total_cost_estimate results))] ];
          CElem "div" [className "stat-item"]
            [ CElem "h4" [] [CText "Items Selected"];
              CElem "p" [className "stat-value"]
                [CNum (inject_Z (Z.of_nat (length (furniture_items results))))] ];
          CElem "div" [className "stat-item"]
            [ CElem "h4" [] [CText "Design Time"];
              CElem "p" [className "stat-value"]
                [CText (toFixed 1 (completion_time results)); CText "s"] ] ];
      CElem "div" [className "furniture-list"]
        [ CElem "h3" [] [CText "Selected Furniture"];
          CElem "div" [className "furniture-grid"]
            [CArray (imap furniture_card (furniture_items results))] ] ].

End WithEnvironment.

End ResultsSectionView.

(** ** The TypeScript interface declarations, as data *)

Module TS.
Import JS.

Inductive ts_type :=
| TString
| TNumber
| TBoolean
| TAny
| TNull
| TArray (elem : ts_type)
| TObject (fields : list (string * ts_type))
| TUnion (a b : ts_type).

(** Structural conformance of a parsed value to a type: an object conforms
    when each declared field is an own property of a conforming value;
    properties that are not declared are allowed. *)
Fixpoint has_type (t : ts_type) (v : json) : bool :=
  match t with
  | TString => match v with JStr _ => true | _ => false end
  | TNumber => match v with JNum _ => true | _ => false end
  | TBoolean => match v with JBool _ => true | _ => false end
  | TAny => true
  | TNull => match v with JNull => true | _ => false end
  | TArray elem =>
      match v with
      | JArr xs => forallb (has_type elem) xs
      | _ => false
      end
  | TObject fields =>
      match v with
      | JObj props =>
          (fix all_fields (fs : list (string * ts_type)) : bool :=
             match fs with
             | [] => true
             | (k, tk) :: rest =>
                 match own_prop k props with
                 | Some vk => has_type tk vk
                 | None => false
                 end && all_fields rest
             end) fields
      | _ => false
      end
  | TUnion a b => has_type a v || has_type b v
  end.

Definition admits_null (t : ts_type) : bool := has_type t JNull.

Definition nullable (t : ts_type) : ts_type := TUnion t TNull.

(** [interface AgentStatus] of [App.tsx] (lines 14-24). *)
Definition AgentStatus_App : list (string * ts_type) :=
  [ ("status", TString);
    ("current_step", TString);
    ("steps_completed", TArray TString);
    ("progress_percentage", TNumber);
    ("messages", TArray (TObject [("timestamp", TString); ("message", TString)]));
    ("errors", TArray TString) ].

(** [interface AgentMessage] and [interface AgentStatus] of
    [AgentProgress.tsx] (lines 4-16). *)
Definition AgentMessage_AgentProgress : list (string * ts_type) :=
  [ ("timestamp", TString); ("message", TString) ].

Definition AgentStatus_AgentProgress : list (string * ts_type) :=
  [ ("status", TString);
    ("current_step", TString);
    ("steps_completed", TArray TString);
    ("progress_percentage", TNumber);
    ("messages", TArray (TObject AgentMessage_AgentProgress));
    ("errors", TArray TString) ].

(** [interface FurnitureItem] of [App.tsx] (lines 31-46). *)
Definition FurnitureItem_App : list (string * ts_type) :=
  [ ("title", TString);
    ("price", TUnion TString TNull);
    ("google_link", TUnion TString TNull);
    ("direct_link", TUnion TString TNull);
    ("source", TUnion TString TNull);
    ("delivery", TUnion TString TNull);
    ("product_rating", TUnion TNumber TNull);
    ("product_reviews", TUnion TNumber TNull);
    ("store_rating", TUnion TNumber TNull);
    ("store_reviews", TUnion TNumber TNull);
    ("category", TUnion TString TNull);
    ("position", TUnion (TObject [("x", TNumber); ("y", TNumber)]) TNull);
    ("image_url", TUnion TString TNull);
    ("local_image_path", TUnion TString TNull) ].

(** [interface FurnitureItem] of [ResultsSection.tsx] (lines 6-21). *)
Definition FurnitureItem_ResultsSection : list (string * ts_type) :=
  [ ("title", TString);
    ("price", TUnion TString TNull);
    ("google_link", TUnion TString TNull);
    ("direct_link", TUnion TString TNull);
    ("source", TUnion TString TNull);
    ("delivery", TUnion TString TNull);
    ("product_rating", TUnion TNumber TNull);
    ("product_reviews", TUnion TNumber TNull);
    ("store_rating", TUnion TNumber TNull);
    ("store_reviews", TUnion TNumber TNull);
    ("category", TUnion TString TNull);
    ("position", TUnion (TObject [("x", TNumber); ("y", TNumber)]) TNull);
    ("image_url", TUnion TString TNull);
    ("local_image_path", TUnion TString TNull) ].

(** The six fields of the status payload as the specification lists them
    (section 6, [GET /api/agent/status]).  The specification leaves the
    types of a message's timestamp and text open. *)
Definition spec_status_fields (timestamp_type message_type : ts_type)
  : list (string * ts_type) :=
  [ ("status", TString);
    ("current_step", TString);
    ("steps_completed", TArray TString);
    ("progress_percentage", TNumber);
    ("messages",
       TArray (TObject [("timestamp", timestamp_type); ("message", message_type)]));
    ("errors", TArray TString) ].

(** The records of [Api] written back as parsed JSON. *)
Definition opt_json {A} (f : A -> json) (o : option A) : json :=
  match o with Some a => f a | None => JNull end.

Definition Position_to_json (p : Api.Position) : json :=
  JObj [("x", JNum (Api.pos_x p)); ("y", JNum (Api.pos_y p))].

Definition FurnitureItem_to_json (i : Api.FurnitureItem) : json :=
  JObj
    [ ("title", JStr (Api.title i));
      ("price", opt_json JStr (Api.price i));
      ("google_link", opt_json JStr (Api.google_link i));
      ("direct_link", opt_json JStr (Api.direct_link i));
      ("source", opt_json JStr (Api.source i));
      ("delivery", opt_json JStr (Api.delivery i));
      ("product_rating", opt_json JNum (Api.product_rating i));
      ("product_reviews", opt_json JNum (Api.product_reviews i));
      ("store_rating", opt_json JNum (Api.store_rating i));
      ("store_reviews", opt_json JNum (Api.store_reviews i));
      ("category", opt_json JStr (Api.category i));
      ("position", opt_json Position_to_json (Api.position i));
      ("image_url", opt_json JStr (Api.image_url i));
      ("local_image_path", opt_json JStr (Api.local_image_path i)) ].

Definition AgentMessage_to_json (m : Api.AgentMessage) : json :=
  JObj [("timestamp", JStr (Api.timestamp m)); ("message", JStr (Api.message m))].

Definition AgentStatus_to_json (s : Api.AgentStatus) : json :=
  JObj
    [ ("status", JStr (Api.status s));
      ("current_step", JStr (Api.current_step s));
      ("steps_completed", JArr (map JStr (Api.steps_completed s)));
      ("progress_percentage", JNum (Api.progress_percentage s));
      ("messages", JArr (map AgentMessage_to_json (Api.messages s)));
      ("errors", JArr (map JStr (Api.errors s))) ].

End TS.

(** ** The session states of the specification *)

Module SessionStates.

(** The seven values of [status] (specification, section 3), with the
    names the specification gives them. *)
Inductive Status :=
| Idle | Analyzing | Planning | Shopping | Designing | Completed | Error.

#[export] Instance Status_eq_dec : EqDecision Status.
Proof. solve_decision. Defined.

Definition all_statuses : list Status :=
  [Idle; Analyzing; Planning; Shopping; Designing; Completed; Error].

Definition spec_name (st : Status) : string :=
  match st with
  | Idle => "Idle"
  | Analyzing => "Analyzing"
  | Planning => "Planning"
  | Shopping => "Shopping"
  | Designing => "Designing"
  | Completed => "Completed"
  | Error => "Error"
  end.

(** "Terminal states Completed and Error" (section 4.2). *)
Definition terminal (st : Status) : bool :=
  match st with
  | Completed | Error => true
  | _ => false
  end.

(** ASCII lower-casing. *)
Definition lower_ascii (c : ascii) : ascii :=
  let n := nat_of_ascii c in
  if (65 <=? n)%nat && (n <=? 90)%nat then ascii_of_nat (n + 32) else c.

Fixpoint to_lower (s : string) : string :=
  match s with
  | EmptyString => EmptyString
  | String c rest => String (lower_ascii c) (to_lower rest)
  end.

(** The string that names a state on the wire: the client's literals are
    the specification's names in lower case. *)
Definition wire_name (st : Status) : string := to_lower (spec_name st).

End SessionStates.

(** ** The session pipeline of the backend *)

Module Orchestrator.
Export SessionStates.

(** Modelled from the spec: the backend ([backend/main.py],
    [backend/agent.py]) is not among the sources.  The four stages of the
    pipeline, in order (section 4.2). *)
Inductive Stage := Analyze | Plan | Shop | Design.

#[export] Instance Stage_eq_dec : EqDecision Stage.
Proof. solve_decision. Defined.

Definition stage_name (s : Stage) : string :=
  match s with
  | Analyze => "analyze"
  | Plan => "plan"
  | Shop => "shop"
  | Design => "design"
  end.

(** Modelled from the spec: the stage a session in state [st] executes;
    none when the session has not been started or has terminated
    ("States: Idle, Analyzing, Planning, Shopping, Designing, Completed"). *)
Definition active_stage (st : Status) : option Stage :=
  match st with
  | Analyzing => Some Analyze
  | Planning => Some Plan
  | Shopping => Some Shop
  | Designing => Some Design
  | Idle | Completed | Error => None
  end.

(** Modelled from the spec: "transition status to the next stage's name
    (or Completed after Design)". *)
Definition next_status (s : Stage) : Status :=
  match s with
  | Analyze => Planning
  | Plan => Shopping
  | Shop => Designing
  | Design => Completed
  end.

(** Modelled from the spec: the session record of section 3 (without the
    id and the image reference, which no stage changes). *)
Record Session := {
  status : Status;
  current_step : string;
  steps_completed : list Stage;
  progress_percentage : Z;
  messages : list (nat * string);
  errors : list string;
  design_plan : option string;
  results : option string
}.

(** Modelled from the spec: what a stage executor hands back: its output,
    with the per-item misses of the Shop stage, or the error that exhausted
    the stage (section 4.3). *)
Inductive StageResult :=
| Succeeded (output : string) (item_misses : list string)
| Failed (error : string).

(** Modelled from the spec: session creation by the upload collaborator,
    in state Idle. *)
Definition create : Session :=
  {| status := Idle; current_step := ""; steps_completed := [];
     progress_percentage := 0; messages := []; errors := [];
     design_plan := None; results := None |}.

(** Modelled from the spec: [start] fails with AlreadyStarted ([None])
    unless the session is Idle; otherwise it transitions to Analyzing. *)
Definition start (sess : Session) : option Session :=
  match status sess with
  | Idle =>
      Some {| status := Analyzing; current_step := stage_name Analyze;
              steps_completed := steps_completed sess;
              progress_percentage := progress_percentage sess;
              messages := messages sess; errors := errors sess;
              design_plan := design_plan sess; results := results sess |}
  | _ => None
  end.

(** The session a client polls: created by the upload, then started. *)
Definition started_session : Session := default create (start create).

Section WithWeights.

(** The fixed progress target of each stage. *)
Variable target : Stage -> Z.

(** Modelled from the spec: per-stage execution (section 4.2, steps 1-4)
    at time [now].  On success the stage is appended to steps_completed,
    progress moves to the stage's target and the status to the next state;
    on failure the error is appended, the status becomes Error and nothing
    else advances.  A session with no active stage is left alone. *)
Definition execute_stage (now : nat) (r : StageResult) (sess : Session) : Session :=
  match active_stage (status sess) with
  | None => sess
  | Some s =>
      let started := messages sess ++ [(now, "starting " +:+ stage_name s)] in
      match r with
      | Succeeded output item_misses =>
          {| status := next_status s;
             current_step :=
               match active_stage (next_status s) with
               | Some s' => stage_name s'
               | None => stage_name s
               end;
             steps_completed := steps_completed sess ++ [s];
             progress_percentage := target s;
             messages := started ++ map (fun m => (now, m)) item_misses
                                 ++ [(now, "completed " +:+ stage_name s)];
             errors := errors sess ++ item_misses;
             design_plan :=
               match s with Plan => Some output | _ => design_plan sess end;
             results :=
               match s with Design => Some output | _ => results sess end |}
      | Failed error =>
          {| status := Error;
             current_step := current_step sess;
             steps_completed := steps_completed sess;
             progress_percentage := progress_percentage sess;
             messages := started ++ [(now, "failed " +:+ stage_name s)];
             errors := errors sess ++ [error];
             design_plan := design_plan sess;
             results := results sess |}
      end
  end.

(** Modelled from the spec: the background task of a session; the
    executors' results are consumed in order, one stage after the other. *)
Fixpoint run (rs : list (nat * StageResult)) (sess : Session) : Session :=
  match rs with
  | [] => sess
  | (now, r) :: rest => run rest (execute_stage now r sess)
  end.

(** The weight table never goes down along the pipeline and starts at or
    above zero ("advance progress_percentage to the stage's target"). *)
Definition weights_advance : Prop :=
  (0 <= target Analyze)%Z /\ (target Analyze <= target Plan)%Z /\
  (target Plan <= target Shop)%Z /\ (target Shop <= target Design)%Z.

(** Progress has not passed the target of the stage in execution. *)
Definition progress_bounded (sess : Session) : Prop :=
  match active_stage (status sess) with
  | Some s => (progress_percentage sess <= target s)%Z
  | None => True
  end.

End WithWeights.

(** Modelled from the spec: the weight table the specification gives as
    its example (Analyze=25, Plan=50, Shop=75, Design=100). *)
Definition suggested_target (s : Stage) : Z :=
  match s with
  | Analyze => 25
  | Plan => 50
  | Shop => 75
  | Design => 100
  end%Z.

End Orchestrator.

(** ** Concrete inputs used below *)

Module Examples.
Import JS Api App.

Definition snapshot (st cs : string) (sc : list string) (pp : Q)
    (ms : list AgentMessage) (es : list string) : AgentStatus :=
  {| status := st; current_step := cs; steps_completed := sc;
     progress_percentage := pp; messages := ms; errors := es |}.

(** A client that is polling session "s1". *)
Definition polling_world : World :=
  {| app := {| sessionId := Some "s1"; agentStatus := None; designPlan := "";
               finalResults := None; isPolling := true |};
     localStorage := {[ "designSessionId" := "s1" ]};
     trace := [] |}.

(** The answer of the backend for a session it does not know. *)
Definition not_found_error : Error :=
  AxiosError (Some {| err_status := 404;
                      err_data := JObj [("detail", JStr "Agent session not found")] |}).

Definition internal_error : Error :=
  AxiosError (Some {| err_status := 500;
                      err_data := JObj [("detail", JStr "Internal Server Error")] |}).

Definition finished : AgentStatus :=
  snapshot "completed" "Design complete" ["analyze"; "plan"; "shop"; "design"] 100 [] [].

Definition some_results : FinalResults :=
  {| session_id := "s1"; original_image := "/uploads/room.jpg";
     designed_image := "/uploads/room_designed.jpg"; design_plan := JNull;
     total_cost_estimate := 0; furniture_items := []; completion_time := 1;
     design_description := "" |}.

(** A backend that has forgotten every session. *)
Definition forgetful_server : Server :=
  {| post_upload := fun _ => Reject not_found_error;
     post_start := fun _ => Reject not_found_error;
     get_status := fun _ => Reject not_found_error;
     get_plan := fun _ => Reject not_found_error;
     get_results := fun _ => Reject not_found_error;
     delete_agent := fun _ => Reject not_found_error |}.

(** A backend whose session is completed but whose plan endpoint fails. *)
Definition plan_failing_server : Server :=
  {| post_upload := fun _ => Reject internal_error;
     post_start := fun _ => Reject internal_error;
     get_status := fun _ => Resolve finished;
     get_plan := fun _ => Reject internal_error;
     get_results := fun _ => Resolve some_results;
     delete_agent := fun _ => Resolve tt |}.

End Examples.

(** ** [components/UploadSection.tsx] *)

Module UploadSectionView.
Import JS Api App React.


(** The rendering (lines 26-67); [isDragActive] comes from the
    [useDropzone] hook, whose root and input props are passed on as they are. *)
Definition UploadSection (isDragActive : bool) : child :=
  CElem "div" [className "upload-section"]
    [ CElem "div"
        [ className ("dropzone " +:+ (if isDragActive then "active" else ""));
          ("whileHover", PObj [("scale", PNum (102 # 100))]);
          ("whileTap", PObj [("scale", PNum (98 # 100))]);
          ("onClick", PHandler "rootProps.onClick");
          ("onKeyDown", PHandler "rootProps.onKeyDown");
          ("onDragEnter", PHandler "rootProps.onDragEnter");
          ("onDragOver", PHandler "rootProps.onDragOver");
          ("onDragLeave", PHandler "rootProps.onDragLeave");
          ("onDrop", PHandler "rootProps.onDrop");
          ("role", PHandler "rootProps.role");
          ("tabIndex", PHandler "rootProps.tabIndex") ]
        [ CElem "input" [("getInputProps", PHandler "getInputProps()")] [];
          CElem "div" [className "upload-content"]
            [ CElem "div" [className "upload-icon"] [CText "📷"];
              CElem "h2" [] [CText "Upload Your Empty Room"];
              if isDragActive then
                CElem "p" [] [CText "Drop the image here..."]
              else
                CArray
                  [ CElem "p" [] [CText "Drag and drop an image here, or click to select"];
                    CElem "p" [className "upload-hint"]
                      [CText "Supported formats: JPEG, PNG, GIF, WebP"] ] ] ];
      CElem "div" [className "upload-info"]
        [ CElem "h3" [] [CText "How it works:"];
          CElem "ol" []
            [ CElem "li" [] [CText "Upload a photo of your empty room"];
              CElem "li" [] [CText "Our AI agent analyzes the space"];
              CElem "li" [] [CText "It searches for furniture that fits your room"];
              CElem "li" [] [CText "Get a complete interior design plan!"] ] ] ].

End UploadSectionView.

(** ** [components/DesignPlan.tsx] *)

Module DesignPlanView.
Import React.

(** The markdown is handed to [ReactMarkdown] as its only child. *)
Definition DesignPlan (markdown : string) : child :=
  CElem "div"
    [ className "design-plan";
      ("initial", PObj [("opacity", PNum 0); ("y", PNum 20)]);
      ("animate", PObj [("opacity", PNum 1); ("y", PNum 0)]);
      ("transition", PObj [("duration", PNum (1 # 2))]) ]
    [ CElem "h2" [] [CText "Design Plan"];
      CElem "div" [className "markdown-content"]
        [ CElem "ReactMarkdown" [("remarkPlugins", PHandler "remarkGfm")]
            [CText markdown] ] ].

End DesignPlanView.

(** ** The rendering of [App] and the polling effect over time *)

Module AppView.
Import JS Api App React.

(** Does an element of the tree carry the class name [c]? *)
Definition prop_is_class (c : string) (p : string * pval) : bool :=
  String.eqb p.1 "className" &&
  match p.2 with
  | PStr s => String.eqb s c
  | _ => false
  end.

Fixpoint has_class (c : string) (x : child) : bool :=
  let fix any (xs : list child) : bool :=
    match xs with
    | [] => false
    | y :: rest => has_class c y || any rest
    end in
  match x with
  | CElem _ props children => existsb (prop_is_class c) props || any children
  | CArray items => any items
  | _ => false
  end.

(** The class names that tell the screens and panels of [App] apart. *)
Definition landmark (c : string) : Prop :=
  c = "reset-button" \/ c = "upload-section" \/ c = "agent-container" \/
  c = "design-plan" \/ c = "results-section".

Fixpoint has_class_any (c : string) (xs : list child) : bool :=
  match xs with
  | [] => false
  | y :: rest => has_class c y || has_class_any c rest
  end.

Section WithEnvironment.

Variable VITE_API_URL : option string.
Variable toLocaleTimeString : string -> string.
Variable toFixed : nat -> Q -> string.
(** The drag state of the dropzone hook. *)
Variable isDragActive : bool.

(** [{finalResults && (<button .../>)}] (lines 184-188). *)
Definition reset_button (s : AppState) : child :=
  match finalResults s with
  | Some _ =>
      CElem "button" [className "reset-button"; ("onClick", PHandler "resetAgent")]
        [CText "Start New Design"]
  | None => CEmpty
  end.

(** [{designPlan && <DesignPlan markdown={designPlan} />}] (line 191). *)
Definition plan_panel (s : AppState) : child :=
  if truthy_string (designPlan s) then DesignPlanView.DesignPlan (designPlan s)
  else CText (designPlan s).

(** [{finalResults && <ResultsSection results={finalResults} />}]
    (line 192). *)
Definition results_panel (s : AppState) : child :=
  match finalResults s with
  | Some r => ResultsSectionView.ResultsSection VITE_API_URL toFixed r
  | None => CEmpty
  end.

(** The child of [AnimatePresence] (lines 163-196): the upload screen
    while [sessionId] is falsy, the agent screen otherwise. *)
Definition screen (s : AppState) : child :=
  if negb (truthy_opt_string (sessionId s)) then
    CElem "div"
      [ ("key", PStr "upload");
        ("initial", PObj [("opacity", PNum 0); ("scale", PNum (9 # 10))]);
        ("animate", PObj [("opacity", PNum 1); ("scale", PNum 1)]);
        ("exit", PObj [("opacity", PNum 0); ("scale", PNum (9 # 10))]);
        ("transition", PObj [("duration", PNum (3 # 10))]) ]
      [UploadSectionView.UploadSection isDragActive]
  else
    CElem "div"
      [ ("key", PStr "agent");
        ("initial", PObj [("opacity", PNum 0)]);
        ("animate", PObj [("opacity", PNum 1)]);
        ("exit", PObj [("opacity", PNum 0)]);
        className "agent-container" ]
      [ CElem "div" [className "agent-grid"]
          [ CElem "div" [className "left-panel"]
              [ AgentProgressView.AgentProgress toLocaleTimeString (agentStatus s);
                reset_button s ];
            CElem "div" [className "right-panel"]
              [ plan_panel s; results_panel s ] ] ].

(** What [App] returns (lines 146-204). *)
Definition App_render (s : AppState) : child :=
  CElem "div" [className "App"]
    [ CElem "Toaster" [("position", PStr "top-right")] [];
      CElem "header" [className "app-header"]
        [ CElem "h1"
            [ ("initial", PObj [("opacity", PNum 0); ("y", PNum (-20 # 1))]);
              ("animate", PObj [("opacity", PNum 1); ("y", PNum 0)]);
              ("transition", PObj [("duration", PNum (1 # 2))]) ]
            [CText "🏠 AI Interior Design Agent"];
          CElem "p" [className "subtitle"]
            [CText "Transform your empty room with AI-powered design"] ];
      CElem "main" [className "app-main"]
        [ CElem "AnimatePresence" [("mode", PStr "wait")] [screen s] ];
      CElem "footer" [className "app-footer"]
        [CElem "p" [] [CText "AI-Powered Interior Design Assistant"]] ].

End WithEnvironment.

(** The state [App] starts in (the initial values of its [useState]
    cells, lines 60-64). *)
Definition initial_state : AppState :=
  {| sessionId := None; agentStatus := None; designPlan := "";
     finalResults := None; isPolling := false |}.

(** One firing of the interval of the polling effect: the callback runs
    when the effect has an interval installed, with the session id it
    closed over; [srv] is the backend's behaviour at that moment.  Firings
    are taken one after the other. *)
Definition poll_step (env : option string) (srv : Server) (w : World) : World :=
  match polling_interval (app w) with
  | Some sid => after (pollTick env srv sid) w
  | None => w
  end.

Fixpoint poll_steps (env : option string) (srvs : list Server) (w : World) : World :=
  match srvs with
  | [] => w
  | srv :: rest => poll_steps env rest (poll_step env srv w)
  end.

(** At the moment of a firing the backend answers the status and plan
    requests for [sid], with a status that is neither completed nor
    error. *)
Definition in_progress (srv : Server) (sid : string) : Prop :=
  exists s p,
    get_status srv sid = Resolve s /\ get_plan srv sid = Resolve p /\
    status s <> "completed" /\ status s <> "error".

(** The request goes to an [/api/] path under the configured base. *)
Definition targets_api (env : option string) (r : Request) : Prop :=
  exists path, url r = API_URL env +:+ "/api/" +:+ path.

(** The requests among a list of events. *)
Definition requests_of (evs : list Event) : list Request :=
  omap (fun ev => match ev with Http r => Some r | _ => None end) evs.

End AppView.

(** ** More concrete inputs *)

Module Scenarios.
Import JS Api App.

(** A 404 whose body has an object for its detail. *)
Definition not_found_with_object_detail : Error :=
  AxiosError (Some {| err_status := 404;
                      err_data := JObj [("detail", JObj [("code", JNum 404)])] |}).

(** A failure whose status is not 404 but whose detail names the missing
    session. *)
Definition stale_session_error : Error :=
  AxiosError (Some {| err_status := 500;
                      err_data := JObj [("detail", JStr "Agent session not found")] |}).

(** A validation failure in the style of FastAPI: the detail is a list. *)
Definition list_detail_error : Error :=
  AxiosError (Some {| err_status := 422;
                      err_data := JObj [("detail", JArr [JStr "not found"])] |}).

Definition rejecting (e : Error) : Server :=
  {| post_upload := fun _ => Reject e;
     post_start := fun _ => Reject e;
     get_status := fun _ => Reject e;
     get_plan := fun _ => Reject e;
     get_results := fun _ => Reject e;
     delete_agent := fun _ => Reject e |}.

Definition accepted_upload : UploadResponse :=
  {| success := true; upload_session_id := "s1";
     file_path := "uploads/s1_room.jpg"; filename := "room.jpg" |}.

Definition room_photo : File := {| file_name := "room.jpg"; file_content := "" |}.

(** The upload is accepted, the start of the agent is refused. *)
Definition start_refusing_server : Server :=
  {| post_upload := fun _ => Resolve accepted_upload;
     post_start := fun _ => Reject Examples.internal_error;
     get_status := fun _ => Reject Examples.internal_error;
     get_plan := fun _ => Reject Examples.internal_error;
     get_results := fun _ => Reject Examples.internal_error;
     delete_agent := fun _ => Resolve tt |}.

(** A backend that answers every request, with the given status. *)
Definition answering (s : AgentStatus) : Server :=
  {| post_upload := fun _ => Resolve accepted_upload;
     post_start := fun _ => Resolve tt;
     get_status := fun _ => Resolve s;
     get_plan := fun _ => Resolve {| plan := "# Plan"; plan_status := status s |};
     get_results := fun _ => Resolve Examples.some_results;
     delete_agent := fun _ => Resolve tt |}.

Definition analyzing : AgentStatus :=
  Examples.snapshot "analyzing" "Analyzing room" [] 10 [] [].

Definition failed : AgentStatus :=
  Examples.snapshot "error" "Failed" ["analyze"] 25 [] ["Design generation failed"].

Definition fresh_world : World :=
  {| app := AppView.initial_state; localStorage := ∅; trace := [] |}.

End Scenarios.

(** ** [test-deployment.sh] *)

Module TestDeployment.

(** [${BACKEND_URL%/}] (line 29): the shortest suffix matching [/] is
    removed, that is one trailing slash when there is one. *)
Fixpoint strip_trailing_slash (s : string) : string :=
  match s with
  | EmptyString => EmptyString
  | String c rest =>
      match rest with
      | EmptyString => if Ascii.eqb c "/" then EmptyString else s
      | _ => String c (strip_trailing_slash rest)
      end
  end.

(** [test_endpoint] (lines 7-22): success exactly for HTTP code 200. *)
Definition test_endpoint (http_code : string) : bool := String.eqb http_code "200".

(** The two URLs the script probes (lines 36-37). *)
Definition probed_urls (backend_url : string) : list string :=
  let base := strip_trailing_slash backend_url in
  [base +:+ "/docs"; base +:+ "/api/health"].

End TestDeployment.

(** * Properties *)

(** ** Substring search and [slice] *)

Module JSFacts.
Import JS.

Lemma prefix_spec (a s : string) :
  String.prefix a s = true <-> exists post, s = a +:+ post.
Proof.
  revert s. induction a as [|c a IH]; intros s.
  - split; [intros _; by exists s |]. intros _. by destruct s.
  - destruct s as [|d s]; simpl.
    + split; [done | intros [post H]; discriminate].
    + destruct (Ascii.ascii_dec c d) as [->|Hne].
      * rewrite IH. split; intros [post H]; exists post.
        -- change (String d s = String d (a +:+ post)). by rewrite H.
        -- change (String d s = String d (a +:+ post)) in H. congruence.
      * split; [done | intros [post H]].
        change (String d s = String c (a +:+ post)) in H. congruence.
Qed.

Lemma includes_spec (needle s : string) :
  includes needle s = true <-> exists pre post, s = pre +:+ needle +:+ post.
Proof.
  induction s as [|c s IH]; cbn [includes].
  - rewrite orb_true_iff, prefix_spec. split.
    + intros [[post H]|?]; [|done]. by exists "", post.
    + intros [pre [post H]]. destruct pre; [left; by exists post | discriminate].
  - rewrite orb_true_iff, prefix_spec, IH. split.
    + intros [[post H] | [pre [post H]]].
      * by exists "", post.
      * exists (String c pre), post. by rewrite H.
    + intros [pre [post H]]. destruct pre as [|d pre].
      * left. by exists post.
      * right. exists pre, post.
        change (String c s = String d (pre +:+ needle +:+ post)) in H. congruence.
Qed.

Lemma slice_last_five {A} (l : list A) :
  slice (-5) l = drop (length l - 5) l.
Proof.
  unfold slice. cbn [Z.ltb Z.compare]. f_equal. lia.
Qed.

Lemma slice_last_five_length {A} (l : list A) :
  length (slice (-5) l) = Nat.min 5 (length l).
Proof. rewrite slice_last_five, length_drop. lia. Qed.

Lemma slice_last_five_suffix {A} (l : list A) :
  take (length l - 5) l ++ slice (-5) l = l.
Proof. rewrite slice_last_five. apply take_drop. Qed.

Example slice_of_seven : slice (-5) [1; 2; 3; 4; 5; 6; 7]%nat = [3; 4; 5; 6; 7]%nat.
Proof. reflexivity. Qed.

Example slice_of_three : slice (-5) [1; 2; 3]%nat = [1; 2; 3]%nat.
Proof. reflexivity. Qed.

End JSFacts.

(** ** The handlers of [App] *)

Module AppFacts.
Import JS Api App JSFacts.

Lemma append_inj_l (a b c : string) : a +:+ b = a +:+ c -> b = c.
Proof. induction a as [|x a IH]; [done|]. intros [= H]. by apply IH. Qed.

Lemma results_request_not_status v sid :
  results_request v sid <> status_request v sid.
Proof. intros [= H]. apply append_inj_l in H. discriminate H. Qed.

Lemma results_request_not_plan v sid :
  results_request v sid <> plan_request v sid.
Proof. intros [= H]. apply append_inj_l in H. discriminate H. Qed.

Section WithServer.
Variable VITE_API_URL : option string.
Variable srv : Server.

(** Symbolic execution of a handler: unfold the monad and the state
    setters, and project the records. *)
Ltac run_handler :=
  cbv beta iota zeta delta
    [ events_of after pollTick poll_try poll_catch handleUpload resetAgent
      try_catch await setSessionId setAgentStatus setDesignPlan setFinalResults
      setIsPolling localStorage_removeItem storage_delete console_error toast
      emit update read mbind mret M_bind M_ret bind ret throw
      app localStorage trace sessionId agentStatus designPlan finalResults
      isPolling fst snd ].

(** The same, leaving the [catch] block of the polling callback folded. *)
Ltac run_try :=
  cbv beta iota zeta delta
    [ events_of after pollTick poll_try handleUpload resetAgent
      try_catch await setSessionId setAgentStatus setDesignPlan setFinalResults
      setIsPolling localStorage_removeItem storage_delete console_error toast
      emit update read mbind mret M_bind M_ret bind ret throw
      app localStorage trace sessionId agentStatus designPlan finalResults
      isPolling fst snd ].

Ltac tidy_trace := rewrite <- ?app_assoc; cbn [List.app]; rewrite ?drop_app_length.

Lemma poll_catch_expired e w :
  session_not_found e = Ok true ->
  poll_catch e w =
    (Ok tt,
     {| app := {| sessionId := None; agentStatus := agentStatus (app w);
                  designPlan := designPlan (app w);
                  finalResults := finalResults (app w); isPolling := false |};
        localStorage := delete "designSessionId" (localStorage w);
        trace := trace w ++
          [ ConsoleError "Polling error:" e;
            LocalStorageRemoveItem "designSessionId";
            SetSessionId None; SetIsPolling false; expired_toast ] |}).
Proof.
  intros H. run_handler. rewrite H. run_handler. by tidy_trace.
Qed.

Lemma poll_catch_other e w :
  session_not_found e = Ok false ->
  poll_catch e w =
    (Ok tt,
     {| app := app w; localStorage := localStorage w;
        trace := trace w ++ [ConsoleError "Polling error:" e] |}).
Proof. intros H. run_handler. by rewrite H. Qed.

Lemma poll_catch_throws e e' w :
  session_not_found e = Throw e' ->
  poll_catch e w =
    (Throw e',
     {| app := app w; localStorage := localStorage w;
        trace := trace w ++ [ConsoleError "Polling error:" e] |}).
Proof. intros H. run_handler. by rewrite H. Qed.

Lemma own_prop_first k props v :
  own_prop k props = Some v <->
  exists before rest, props = before ++ (k, v) :: rest /\ k ∉ before.*1.
Proof.
  induction props as [|[k' v'] props IH]; cbn [own_prop].
  - split; [done|]. intros ([|? ?] & rest & H & _); discriminate H.
  - destruct (String.eqb_spec k k') as [<-|Hne].
    + split.
      * intros [= ->]. exists [], props. split; [done | apply not_elem_of_nil].
      * intros ([|[k1 v1] before] & rest & H & Hnot).
        -- by injection H as -> _.
        -- injection H as <- _ _. exfalso. apply Hnot. cbn. left.
    + rewrite IH. split.
      * intros (before & rest & -> & Hnot). exists ((k', v') :: before), rest.
        split; [done|]. cbn. intros [?|?]%elem_of_cons; [by subst | done].
      * intros ([|[k1 v1] before] & rest & H & Hnot).
        -- injection H as -> _ _. done.
        -- injection H as -> -> ->. exists before, rest. split; [done|].
           intros Hin. apply Hnot. cbn. by right.
Qed.

(** The client's accessor finds the detail exactly when the response
    carries one. *)
Lemma error_detail_spec e v : error_detail e = Some v <-> response_detail e v.
Proof.
  unfold error_detail, response_detail. split.
  - destruct e as [[r|]|]; try done. destruct (err_data r) eqn:Hd; try done.
    intros (before & rest & -> & Hnot)%own_prop_first. by exists r, before, rest.
  - intros (r & before & rest & -> & -> & Hnot). apply own_prop_first. by exists before, rest.
Qed.

Lemma response_detail_unique e v1 v2 :
  response_detail e v1 -> response_detail e v2 -> v1 = v2.
Proof. intros H1%error_detail_spec H2%error_detail_spec. congruence. Qed.

Lemma error_status_404_spec e :
  error_status_is_404 e = true <-> response_status e = Some 404%Z.
Proof.
  unfold error_status_is_404, response_status.
  destruct e as [[r|]|]; try (split; [done | by intros [=]]).
  rewrite Z.eqb_eq. split; [by intros -> | by intros [=]].
Qed.

Lemma array_includes_not_found xs :
  existsb (fun x => match x with
                    | JStr s => String.eqb s "not found"
                    | _ => false
                    end) xs = true <-> JStr "not found" ∈ xs.
Proof.
  rewrite existsb_exists. split.
  - intros (x & Hin & Hx). destruct x; try discriminate Hx.
    apply String.eqb_eq in Hx as ->. by apply list_elem_of_In.
  - intros Hin. exists (JStr "not found"). split; [by apply list_elem_of_In | done].
Qed.

(** The condition of the [catch] block evaluates to true exactly under the
    stated condition on the response. *)
Lemma session_not_found_spec e :
  session_not_found e = Ok true <-> expired_condition e.
Proof.
  unfold session_not_found, expired_condition, not_found_status_or_detail_string.
  pose proof (error_status_404_spec e) as H404.
  destruct (error_status_is_404 e).
  { split; [intros _; left; left; by apply H404 | done]. }
  assert (response_status e <> Some 404%Z) as Hnot by (intros H; by apply H404 in H).
  destruct (error_detail e) as [v|] eqn:Hd.
  - apply error_detail_spec in Hd.
    assert (forall v', response_detail e v' -> v' = v) as Huniq
      by (intros v' Hv'; by apply (response_detail_unique e)).
    destruct v as [|b|q|s|xs|props]; cbn [detail_includes_not_found].
    + split; [done|]. intros [[?|(s & ? & ? & Hs & _)]|(xs & Hxs & _)]; [done|..].
      * by apply Huniq in Hs.
      * by apply Huniq in Hxs.
    + split; [done|]. intros [[?|(s & ? & ? & Hs & _)]|(xs & Hxs & _)]; [done|..].
      * by apply Huniq in Hs.
      * by apply Huniq in Hxs.
    + split; [done|]. intros [[?|(s & ? & ? & Hs & _)]|(xs & Hxs & _)]; [done|..].
      * by apply Huniq in Hs.
      * by apply Huniq in Hxs.
    + split.
      * intros [= Hinc]. apply includes_spec in Hinc as (pre & post & Heq).
        left. right. by exists s, pre, post.
      * intros [[?|(s' & pre & post & Hs & Heq)]|(xs & Hxs & _)]; [done|..].
        -- apply Huniq in Hs. injection Hs as <-. f_equal.
           apply includes_spec. by exists pre, post.
        -- by apply Huniq in Hxs.
    + split.
      * intros [= Hex]. right. exists xs. split; [done|]. by apply array_includes_not_found.
      * intros [[?|(s & ? & ? & Hs & _)]|(xs' & Hxs & Hin)]; [done|..].
        -- by apply Huniq in Hs.
        -- apply Huniq in Hxs. injection Hxs as ->. f_equal.
           by apply array_includes_not_found.
    + split; [done|]. intros [[?|(s & ? & ? & Hs & _)]|(xs & Hxs & _)]; [done|..].
      * by apply Huniq in Hs.
      * by apply Huniq in Hxs.
  - split; [done|]. intros [[?|(s & ? & ? & Hs & _)]|(xs & Hxs & _)]; [done|..].
    + apply error_detail_spec in Hs. congruence.
    + apply error_detail_spec in Hxs. congruence.
Qed.

(** Where a failing tick enters its [catch] block: the session id, the
    polling flag and the storage are as before, and nothing was said about
    expiry yet. *)
Lemma failing_tick_enters_catch sid e w :
  polling_request_fails srv sid e ->
  exists w1 evs,
    pollTick VITE_API_URL srv sid w = poll_catch e w1 /\
    sessionId (app w1) = sessionId (app w) /\
    isPolling (app w1) = isPolling (app w) /\
    localStorage w1 = localStorage w /\
    trace w1 = trace w ++ evs /\
    expired_toast ∉ evs.
Proof.
  intros [H | (s & Hs & [H | (p & Hp & Hc & H)])].
  - exists {| app := app w; localStorage := localStorage w;
              trace := trace w ++ [Http (status_request VITE_API_URL sid)] |},
           [Http (status_request VITE_API_URL sid)].
    split; [run_try; rewrite H; by run_try|].
    cbn. repeat split; try done. by intros [[=]|[]%elem_of_nil]%elem_of_cons.
  - exists {| app := {| sessionId := sessionId (app w); agentStatus := Some s;
                        designPlan := designPlan (app w);
                        finalResults := finalResults (app w);
                        isPolling := isPolling (app w) |};
              localStorage := localStorage w;
              trace := ((trace w ++ [Http (status_request VITE_API_URL sid)])
                          ++ [SetAgentStatus (Some s)])
                          ++ [Http (plan_request VITE_API_URL sid)] |},
           [Http (status_request VITE_API_URL sid); SetAgentStatus (Some s);
            Http (plan_request VITE_API_URL sid)].
    split; [run_try; rewrite Hs; run_try; rewrite H; by run_try|].
    cbn. repeat split; try done; [by tidy_trace|].
    intros Hin. repeat (apply elem_of_cons in Hin as [[=]|Hin]). by apply elem_of_nil in Hin.
  - exists {| app := {| sessionId := sessionId (app w); agentStatus := Some s;
                        designPlan := plan p;
                        finalResults := finalResults (app w);
                        isPolling := isPolling (app w) |};
              localStorage := localStorage w;
              trace := ((((trace w ++ [Http (status_request VITE_API_URL sid)])
                          ++ [SetAgentStatus (Some s)])
                          ++ [Http (plan_request VITE_API_URL sid)])
                          ++ [SetDesignPlan (plan p)])
                          ++ [Http (results_request VITE_API_URL sid)] |},
           [Http (status_request VITE_API_URL sid); SetAgentStatus (Some s);
            Http (plan_request VITE_API_URL sid); SetDesignPlan (plan p);
            Http (results_request VITE_API_URL sid)].
    split; [run_try; rewrite Hs; run_try; rewrite Hp; run_try;
            rewrite Hc; run_try; rewrite H; by run_try|].
    cbn. repeat split; try done; [by tidy_trace|].
    intros Hin. repeat (apply elem_of_cons in Hin as [[=]|Hin]). by apply elem_of_nil in Hin.
Qed.

(** C1 (amended). For every failed polling request, the tick announces
    that the session expired exactly when the response status is 404, or the
    response's detail is a string that contains "not found", or the
    response's detail is a list with the string "not found" among its
    elements; in that case it removes designSessionId from localStorage and
    sets sessionId to null and isPolling to false; on any other failure
    sessionId, isPolling and the storage are unchanged, so the polling
    interval stays as it was. *)
Theorem polling_failure_expires_session_iff sid w e :
  polling_request_fails srv sid e ->
  let tick := pollTick VITE_API_URL srv sid in
  (expired_toast ∈ events_of tick w <-> expired_condition e) /\
  (expired_condition e ->
     localStorage (after tick w) = delete "designSessionId" (localStorage w) /\
     sessionId (app (after tick w)) = None /\
     isPolling (app (after tick w)) = false) /\
  (~ expired_condition e ->
     sessionId (app (after tick w)) = sessionId (app w) /\
     isPolling (app (after tick w)) = isPolling (app w) /\
     localStorage (after tick w) = localStorage w /\
     polling_interval (app (after tick w)) = polling_interval (app w)).
Proof.
  intros Hfail tick.
  destruct (failing_tick_enters_catch sid e w Hfail)
    as (w1 & evs & Htick & Hsid & Hpoll & Hstore & Htrace & Hquiet).
  pose proof (session_not_found_spec e) as Hspec.
  unfold events_of, after, tick. rewrite Htick.
  destruct (session_not_found e) as [[|]|e'] eqn:Hcond.
  - rewrite (poll_catch_expired e w1 Hcond).
    cbn [snd app trace localStorage sessionId isPolling].
    rewrite Htrace, Hstore. tidy_trace.
    assert (expired_condition e) as Hexp by by apply Hspec.
    split; [|split; [done | done]].
    split; [done | intros _]. rewrite elem_of_app. right.
    apply list_elem_of_lookup. by exists 4%nat.
  - rewrite (poll_catch_other e w1 Hcond). cbn [snd app trace localStorage].
    rewrite Htrace. tidy_trace.
    assert (~ expired_condition e) as Hexp by (rewrite <- Hspec; congruence).
    split; [|split; [done | intros _]].
    + split; [|done]. rewrite elem_of_app. intros [?|[[=]|[]%elem_of_nil]%elem_of_cons]. done.
    + unfold polling_interval. by rewrite Hsid, Hpoll.
  - rewrite (poll_catch_throws e e' w1 Hcond). cbn [snd app trace localStorage].
    rewrite Htrace. tidy_trace.
    assert (~ expired_condition e) as Hexp by (rewrite <- Hspec; congruence).
    split; [|split; [done | intros _]].
    + split; [|done]. rewrite elem_of_app. intros [?|[[=]|[]%elem_of_nil]%elem_of_cons]. done.
    + unfold polling_interval. by rewrite Hsid, Hpoll.
Qed.

(** The [catch] block of a tick sends no request and never sets
    [isPolling] to true. *)
Lemma poll_catch_events e w :
  exists evs,
    trace (poll_catch e w).2 = trace w ++ evs /\
    forall r, Http r ∉ evs.
Proof.
  destruct (session_not_found e) as [[|]|e'] eqn:H.
  - rewrite (poll_catch_expired e w H). eexists; split; [done|].
    intros r Hin. repeat (apply elem_of_cons in Hin as [[=]|Hin]). by apply elem_of_nil in Hin.
  - rewrite (poll_catch_other e w H). eexists; split; [done|].
    intros r Hin. repeat (apply elem_of_cons in Hin as [[=]|Hin]). by apply elem_of_nil in Hin.
  - rewrite (poll_catch_throws e e' w H). eexists; split; [done|].
    intros r Hin. repeat (apply elem_of_cons in Hin as [[=]|Hin]). by apply elem_of_nil in Hin.
Qed.

(** A tick whose status request is rejected. *)
Lemma pollTick_status_rejected sid e w :
  get_status srv sid = Reject e ->
  pollTick VITE_API_URL srv sid w =
    poll_catch e
      {| app := app w; localStorage := localStorage w;
         trace := trace w ++ [Http (status_request VITE_API_URL sid)] |}.
Proof. intros H. run_try. rewrite H. by run_try. Qed.

(** A tick whose plan request is rejected. *)
Lemma pollTick_plan_rejected sid s e w :
  get_status srv sid = Resolve s ->
  get_plan srv sid = Reject e ->
  pollTick VITE_API_URL srv sid w =
    poll_catch e
      {| app := {| sessionId := sessionId (app w); agentStatus := Some s;
                   designPlan := designPlan (app w);
                   finalResults := finalResults (app w);
                   isPolling := isPolling (app w) |};
         localStorage := localStorage w;
         trace := trace w ++
           [ Http (status_request VITE_API_URL sid); SetAgentStatus (Some s);
             Http (plan_request VITE_API_URL sid) ] |}.
Proof.
  intros Hs Hp. run_try. rewrite Hs. run_try. rewrite Hp. run_try. by tidy_trace.
Qed.

(** A tick whose status and plan requests both succeed. *)
Lemma pollTick_resolved sid s p w :
  get_status srv sid = Resolve s ->
  get_plan srv sid = Resolve p ->
  let seen :=
    {| sessionId := sessionId (app w); agentStatus := Some s;
       designPlan := plan p; finalResults := finalResults (app w);
       isPolling := isPolling (app w) |} in
  let evs :=
    [ Http (status_request VITE_API_URL sid); SetAgentStatus (Some s);
      Http (plan_request VITE_API_URL sid); SetDesignPlan (plan p) ] in
  pollTick VITE_API_URL srv sid w =
    if String.eqb (status s) "completed" then
      match get_results srv sid with
      | Resolve r =>
          (Ok tt,
           {| app := {| sessionId := sessionId (app w); agentStatus := Some s;
                        designPlan := plan p; finalResults := Some r;
                        isPolling := false |};
              localStorage := localStorage w;
              trace := trace w ++ evs ++
                [ Http (results_request VITE_API_URL sid); SetFinalResults (Some r);
                  SetIsPolling false; Toast ToastSuccess "Design completed!" ] |})
      | Reject e =>
          poll_catch e
            {| app := seen; localStorage := localStorage w;
               trace := trace w ++ evs ++ [Http (results_request VITE_API_URL sid)] |}
      end
    else if String.eqb (status s) "error" then
      (Ok tt,
       {| app := {| sessionId := sessionId (app w); agentStatus := Some s;
                    designPlan := plan p; finalResults := finalResults (app w);
                    isPolling := false |};
          localStorage := localStorage w;
          trace := trace w ++ evs ++
            [SetIsPolling false; Toast ToastError "Agent encountered an error"] |})
    else
      (Ok tt, {| app := seen; localStorage := localStorage w; trace := trace w ++ evs |}).
Proof.
  intros Hs Hp. run_try. rewrite Hs. run_try. rewrite Hp. run_try.
  destruct (String.eqb (status s) "completed"); run_try.
  - destruct (get_results srv sid); run_try; by tidy_trace.
  - destruct (String.eqb (status s) "error"); run_try; by tidy_trace.
Qed.

Ltac no_such_event Hin :=
  repeat (apply elem_of_cons in Hin as [Hin|Hin]; [discriminate Hin|]);
  by apply elem_of_nil in Hin.

Ltac other_request Hin :=
  first [ discriminate Hin
        | exfalso;
          match type of Hin with
          | Http (results_request ?v ?s) = _ =>
              pose proof (results_request_not_status v s);
              pose proof (results_request_not_plan v s);
              congruence
          end ].

Ltac no_results_request Hin :=
  repeat (apply elem_of_cons in Hin as [Hin|Hin]; [other_request Hin|]);
  try by apply elem_of_nil in Hin.

(** C3 (amended). In every polling tick the results endpoint is requested
    exactly when the status request and the plan request of that tick both
    succeed and the status is 'completed'.  When both succeed: a status of
    'error' stops polling without a results request, and any other status
    neither requests results nor changes the polling flag. *)
Theorem results_requested_iff_completed_after_plan sid w :
  let tick := pollTick VITE_API_URL srv sid in
  (Http (results_request VITE_API_URL sid) ∈ events_of tick w <->
     exists s p, get_status srv sid = Resolve s /\ get_plan srv sid = Resolve p /\
                 status s = "completed") /\
  (forall s p,
     get_status srv sid = Resolve s -> get_plan srv sid = Resolve p ->
     status s = "error" ->
     isPolling (app (after tick w)) = false /\
     Http (results_request VITE_API_URL sid) ∉ events_of tick w) /\
  (forall s p,
     get_status srv sid = Resolve s -> get_plan srv sid = Resolve p ->
     status s <> "completed" -> status s <> "error" ->
     isPolling (app (after tick w)) = isPolling (app w) /\
     polling_interval (app (after tick w)) = polling_interval (app w) /\
     Http (results_request VITE_API_URL sid) ∉ events_of tick w).
Proof.
  intros tick. unfold tick, events_of, after.
  destruct (get_status srv sid) as [s|e] eqn:Hs.
  2:{ rewrite (pollTick_status_rejected sid e w Hs).
      match goal with |- context [poll_catch e ?w1] =>
        destruct (poll_catch_events e w1) as (evs & -> & Hno) end.
      cbn [trace]. tidy_trace.
      split; [|split; intros; discriminate].
      split; [|by intros (? & ? & [=] & _)].
      intros Hin. no_results_request Hin. by apply Hno in Hin. }
  destruct (get_plan srv sid) as [p|e] eqn:Hp.
  2:{ rewrite (pollTick_plan_rejected sid s e w Hs Hp).
      match goal with |- context [poll_catch e ?w1] =>
        destruct (poll_catch_events e w1) as (evs & -> & Hno) end.
      cbn [trace]. tidy_trace.
      split; [|split; intros; discriminate].
      split; [|by intros (? & ? & _ & [=] & _)].
      intros Hin. no_results_request Hin. by apply Hno in Hin. }
  rewrite (pollTick_resolved sid s p w Hs Hp). cbv zeta.
  destruct (String.eqb_spec (status s) "completed") as [Hc|Hc].
  - split; [|split; intros s' p' [= <-] _; congruence].
    split; [intros _; by exists s, p|intros _].
    destruct (get_results srv sid) as [r|e].
    + cbn [snd trace]. tidy_trace. apply list_elem_of_lookup. by exists 4%nat.
    + match goal with |- context [poll_catch e ?w1] =>
        destruct (poll_catch_events e w1) as (evs & -> & Hno) end.
      cbn [trace]. tidy_trace. apply list_elem_of_lookup. by exists 4%nat.
  - destruct (String.eqb_spec (status s) "error") as [He|He];
      cbn [snd trace app isPolling sessionId]; tidy_trace.
    + split; [|split].
      * split; [intros Hin; no_results_request Hin
               | intros (? & ? & [= <-] & _ & ?); done].
      * intros _ _ _ _ _. split; [done|]. intros Hin; no_results_request Hin.
      * intros s' p' [= <-] _ _ ?. done.
    + split; [|split].
      * split; [intros Hin; no_results_request Hin
               | intros (? & ? & [= <-] & _ & ?); done].
      * intros s' p' [= <-] _ ?. done.
      * intros _ _ _ _ _ _. split; [done|]. split; [done|].
        intros Hin; no_results_request Hin.
Qed.

(** What [handleUpload] does for each pair of replies. *)
Lemma handleUpload_upload_rejected file e w :
  post_upload srv file = Reject e ->
  handleUpload VITE_API_URL srv file w =
    (Ok tt,
     {| app := app w; localStorage := localStorage w;
        trace := trace w ++
          [ Http (upload_request VITE_API_URL file);
            ConsoleError "Upload error:" e;
            Toast ToastError "Failed to upload image" ] |}).
Proof. intros H. run_handler. rewrite H. run_handler. by tidy_trace. Qed.

Lemma handleUpload_start_rejected file u e w :
  post_upload srv file = Resolve u ->
  post_start srv (upload_session_id u) = Reject e ->
  handleUpload VITE_API_URL srv file w =
    (Ok tt,
     {| app := {| sessionId := Some (upload_session_id u);
                  agentStatus := agentStatus (app w);
                  designPlan := designPlan (app w);
                  finalResults := finalResults (app w);
                  isPolling := isPolling (app w) |};
        localStorage := localStorage w;
        trace := trace w ++
          [ Http (upload_request VITE_API_URL file);
            SetSessionId (Some (upload_session_id u));
            Http (start_request VITE_API_URL (upload_session_id u));
            ConsoleError "Upload error:" e;
            Toast ToastError "Failed to upload image" ] |}).
Proof.
  intros Hu Hs. run_handler. rewrite Hu. run_handler. rewrite Hs. run_handler.
  by tidy_trace.
Qed.

Lemma handleUpload_both_resolved file u w :
  post_upload srv file = Resolve u ->
  post_start srv (upload_session_id u) = Resolve tt ->
  handleUpload VITE_API_URL srv file w =
    (Ok tt,
     {| app := {| sessionId := Some (upload_session_id u);
                  agentStatus := agentStatus (app w);
                  designPlan := designPlan (app w);
                  finalResults := finalResults (app w);
                  isPolling := true |};
        localStorage := localStorage w;
        trace := trace w ++
          [ Http (upload_request VITE_API_URL file);
            SetSessionId (Some (upload_session_id u));
            Http (start_request VITE_API_URL (upload_session_id u));
            SetIsPolling true;
            Toast ToastSuccess "Agent started! Analyzing your room..." ] |}).
Proof.
  intros Hu Hs. run_handler. rewrite Hu. run_handler. rewrite Hs. run_handler.
  by tidy_trace.
Qed.

(** C6. [handleUpload] first posts the file as multipart form data to
    /api/upload, then posts to /api/agent/start/ followed by exactly the
    session id of the upload response, and sets isPolling to true only
    after both requests succeeded; when either request fails isPolling is
    never set. *)
Theorem handleUpload_starts_polling_after_both_calls file w :
  let h := handleUpload VITE_API_URL srv file in
  let posted_file :=
    {| method := POST; url := API_URL VITE_API_URL +:+ "/api/upload";
       form_data := [("file", file)];
       headers := [("Content-Type", "multipart/form-data")] |} in
  let posted_start sid :=
    {| method := POST; url := API_URL VITE_API_URL +:+ "/api/agent/start/" +:+ sid;
       form_data := []; headers := [] |} in
  (forall u,
     post_upload srv file = Resolve u ->
     post_start srv (upload_session_id u) = Resolve tt ->
     events_of h w =
       [ Http posted_file; SetSessionId (Some (upload_session_id u));
         Http (posted_start (upload_session_id u)); SetIsPolling true;
         Toast ToastSuccess "Agent started! Analyzing your room..." ] /\
     sessionId (app (after h w)) = Some (upload_session_id u) /\
     isPolling (app (after h w)) = true) /\
  (forall u e,
     post_upload srv file = Resolve u ->
     post_start srv (upload_session_id u) = Reject e ->
     events_of h w =
       [ Http posted_file; SetSessionId (Some (upload_session_id u));
         Http (posted_start (upload_session_id u));
         ConsoleError "Upload error:" e;
         Toast ToastError "Failed to upload image" ] /\
     isPolling (app (after h w)) = isPolling (app w)) /\
  (forall e,
     post_upload srv file = Reject e ->
     events_of h w =
       [ Http posted_file; ConsoleError "Upload error:" e;
         Toast ToastError "Failed to upload image" ] /\
     sessionId (app (after h w)) = sessionId (app w) /\
     isPolling (app (after h w)) = isPolling (app w)) /\
  (SetIsPolling true ∈ events_of h w <->
     exists u, post_upload srv file = Resolve u /\
               post_start srv (upload_session_id u) = Resolve tt).
Proof.
  intros h posted_file posted_start. unfold h, events_of, after.
  split; [|split; [|split]].
  - intros u Hu Hs. rewrite (handleUpload_both_resolved file u w Hu Hs).
    cbn [snd trace app sessionId isPolling]. by tidy_trace.
  - intros u e Hu Hs. rewrite (handleUpload_start_rejected file u e w Hu Hs).
    cbn [snd trace app sessionId isPolling]. by tidy_trace.
  - intros e Hu. rewrite (handleUpload_upload_rejected file e w Hu).
    cbn [snd trace app sessionId isPolling]. by tidy_trace.
  - destruct (post_upload srv file) as [u|e] eqn:Hu.
    + destruct (post_start srv (upload_session_id u)) as [[]|e] eqn:Hs.
      * rewrite (handleUpload_both_resolved file u w Hu Hs). cbn [snd trace]. tidy_trace.
        split; [intros _; by exists u|intros _].
        apply list_elem_of_lookup. by exists 3%nat.
      * rewrite (handleUpload_start_rejected file u e w Hu Hs). cbn [snd trace]. tidy_trace.
        split; [intros Hin; no_such_event Hin|]. intros (u' & [= <-] & H). congruence.
    + rewrite (handleUpload_upload_rejected file e w Hu). cbn [snd trace]. tidy_trace.
      split; [intros Hin; no_such_event Hin|]. by intros (u' & [=] & _).
Qed.

(** The guarded DELETE of [resetAgent] (lines 132-138): it never throws
    and changes nothing but the trace. *)
Lemma reset_delete_step (o : option string) (w : World) :
  exists evs,
    (match o with
     | Some sid =>
         if truthy_string sid then
           try_catch
             (await (delete_request VITE_API_URL sid) (delete_agent srv sid))
             (fun error => console_error "Reset error:" error)
         else ret tt
     | None => ret tt
     end) w
    = (Ok tt, {| app := app w; localStorage := localStorage w;
                 trace := trace w ++ evs |}) /\
    (forall r, Http r ∈ evs ->
       exists sid, o = Some sid /\ r = delete_request VITE_API_URL sid).
Proof.
  destruct w as [a ls tr].
  destruct o as [sid|]; [destruct (truthy_string sid)|].
  - destruct (delete_agent srv sid) as [[]|e] eqn:Hd.
    + exists [Http (delete_request VITE_API_URL sid)].
      split; [by run_handler|].
      intros r [[= ->]|Hin]%elem_of_cons; [by exists sid | by apply elem_of_nil in Hin].
    + exists [Http (delete_request VITE_API_URL sid); ConsoleError "Reset error:" e].
      split; [run_handler; by tidy_trace|].
      intros r [[= ->]|Hin]%elem_of_cons; [by exists sid | no_such_event Hin].
  - exists []. split; [run_handler; by rewrite app_nil_r|].
    intros r Hin. by apply elem_of_nil in Hin.
  - exists []. split; [run_handler; by rewrite app_nil_r|].
    intros r Hin. by apply elem_of_nil in Hin.
Qed.

(** C9. After every call of [resetAgent] the five state cells hold null,
    null, the empty string, null and false, whether the DELETE request
    succeeded, failed or was not sent; the handler itself never throws, and
    a DELETE is sent only for a session id that was set. *)
Theorem resetAgent_always_clears_state w :
  let h := resetAgent VITE_API_URL srv in
  (h w).1 = Ok tt /\
  app (after h w) =
    {| sessionId := None; agentStatus := None; designPlan := "";
       finalResults := None; isPolling := false |} /\
  (forall r, Http r ∈ events_of h w ->
     exists sid, sessionId (app w) = Some sid /\ r = delete_request VITE_API_URL sid) /\
  (sessionId (app w) = None -> forall r, Http r ∉ events_of h w).
Proof.
  intros h.
  destruct (reset_delete_step (sessionId (app w)) w) as (evs & Hstep & Hev).
  assert (h w =
    (Ok tt,
     {| app := {| sessionId := None; agentStatus := None; designPlan := "";
                  finalResults := None; isPolling := false |};
        localStorage := localStorage w;
        trace := trace w ++ evs ++
          [ SetSessionId None; SetAgentStatus None; SetDesignPlan "";
            SetFinalResults None; SetIsPolling false ] |})) as Hrun.
  { unfold h, resetAgent.
    unfold mbind at 1, M_bind at 1, bind at 1, read.
    unfold mbind at 1, M_bind at 1, bind at 1. rewrite Hstep.
    run_handler. by tidy_trace. }
  unfold events_of, after. rewrite Hrun. cbn [fst snd app trace]. tidy_trace.
  split; [done|]. split; [done|].
  assert (forall r, Http r ∈ evs ++
            [ SetSessionId None; SetAgentStatus None; SetDesignPlan "";
              SetFinalResults None; SetIsPolling false ] -> Http r ∈ evs) as Hin_evs.
  { intros r [Hin|Hin]%elem_of_app; [done | no_such_event Hin]. }
  split.
  - intros r Hin. by apply Hev, Hin_evs.
  - intros Hnone r Hin. destruct (Hev r (Hin_evs r Hin)) as (sid & Hsid & _). congruence.
Qed.
(** A tick in which all three requests succeed leaves [isPolling] false
    exactly for the two status strings that end polling. *)
Lemma pollTick_polling_flag sid s p r w :
  get_status srv sid = Resolve s ->
  get_plan srv sid = Resolve p ->
  get_results srv sid = Resolve r ->
  isPolling (app (after (pollTick VITE_API_URL srv sid) w)) =
    if ends_polling (status s) then false else isPolling (app w).
Proof.
  intros Hs Hp Hr. unfold after, ends_polling.
  rewrite (pollTick_resolved sid s p w Hs Hp). cbv zeta. rewrite Hr.
  destruct (String.eqb (status s) "completed"); [done|].
  by destruct (String.eqb (status s) "error").
Qed.

(** Details that are not strings: an array is searched for an element
    equal to "not found", and a value without an [includes] method makes the
    [catch] block throw, which leaves the state as it was. *)
Remark session_not_found_array_detail :
  session_not_found
    (AxiosError (Some {| err_status := 500;
                         err_data := JObj [("detail", JArr [JStr "not found"])] |}))
  = Ok true.
Proof. reflexivity. Qed.

Remark poll_catch_object_detail w :
  let e := AxiosError (Some {| err_status := 422;
                               err_data := JObj [("detail", JObj [])] |}) in
  exists e', (poll_catch e w).1 = Throw e' /\
             app (after (poll_catch e) w) = app w /\
             localStorage (after (poll_catch e) w) = localStorage w.
Proof. by eexists. Qed.

End WithServer.

Lemma polling_failure_expires_session_witness :
  sessionId
    (app (after (pollTick None (Scenarios.rejecting Scenarios.stale_session_error) "s1")
            Examples.polling_world)) = None /\
  isPolling
    (app (after (pollTick None (Scenarios.rejecting Scenarios.stale_session_error) "s1")
            Examples.polling_world)) = false /\
  localStorage
    (after (pollTick None (Scenarios.rejecting Scenarios.stale_session_error) "s1")
       Examples.polling_world) = ∅.
Proof.
  destruct (polling_failure_expires_session_iff
              None (Scenarios.rejecting Scenarios.stale_session_error) "s1"
              Examples.polling_world Scenarios.stale_session_error)
    as (_ & Hexpired & _).
  - left. reflexivity.
  - destruct Hexpired as (Hstore & Hsid & Hpoll).
    + left. right. exists "Agent session not found", "Agent session ", "".
      split; [|reflexivity].
      eexists _, [], []. split; [reflexivity|]. split; [reflexivity|].
      apply not_elem_of_nil.
    + split; [exact Hsid|]. split; [exact Hpoll|].
      rewrite Hstore. vm_compute. reflexivity.
Defined.

(** C1, as stated, fails: the response has status 422 and a detail that is
    a list, so there is no detail string and the status is not 404; yet the
    list has the element "not found" and the tick expires the session. *)
Lemma list_detail_expires_session :
  response_status Scenarios.list_detail_error = Some 422%Z /\
  response_detail Scenarios.list_detail_error (JArr [JStr "not found"]) /\
  ~ not_found_status_or_detail_string Scenarios.list_detail_error /\
  get_status (Scenarios.rejecting Scenarios.list_detail_error) "s1"
    = Reject Scenarios.list_detail_error /\
  expired_toast ∈
    events_of (pollTick None (Scenarios.rejecting Scenarios.list_detail_error) "s1")
      Examples.polling_world /\
  sessionId
    (app (after (pollTick None (Scenarios.rejecting Scenarios.list_detail_error) "s1")
            Examples.polling_world)) = None /\
  isPolling
    (app (after (pollTick None (Scenarios.rejecting Scenarios.list_detail_error) "s1")
            Examples.polling_world)) = false.
Proof.
  split; [reflexivity|].
  assert (response_detail Scenarios.list_detail_error (JArr [JStr "not found"])) as Hd.
  { eexists _, [], []. split; [reflexivity|]. split; [reflexivity|]. apply not_elem_of_nil. }
  split; [exact Hd|].
  split.
  { intros [H|(s & pre & post & Hs & _)]; [discriminate H|].
    pose proof (response_detail_unique _ _ _ Hs Hd) as Heq. discriminate Heq. }
  split; [reflexivity|].
  split; [|split; reflexivity].
  apply list_elem_of_lookup. by exists 5%nat.
Qed.

(** C3, as stated, fails: the status response says 'completed', the plan
    request of the same tick is rejected, and the tick ends without a
    request to the results endpoint (and keeps polling). *)
Lemma completed_status_without_results_request :
  get_status Examples.plan_failing_server "s1" = Resolve Examples.finished /\
  status Examples.finished = "completed" /\
  events_of (pollTick None Examples.plan_failing_server "s1") Examples.polling_world =
    [ Http (status_request None "s1");
      SetAgentStatus (Some Examples.finished);
      Http (plan_request None "s1");
      ConsoleError "Polling error:" Examples.internal_error ] /\
  isPolling (app (after (pollTick None Examples.plan_failing_server "s1")
                    Examples.polling_world)) = true.
Proof. repeat split. Qed.

End AppFacts.

(** ** Conformance to an interface *)

Module TSFacts.
Import JS TS.

Lemma has_type_object fields props :
  has_type (TObject fields) (JObj props) = true <->
  forall k t, (k, t) ∈ fields ->
    exists v, own_prop k props = Some v /\ has_type t v = true.
Proof.
  induction fields as [|[k t] fields IH].
  - split; [intros _ k t Hin; by apply elem_of_nil in Hin | done].
  - change (has_type (TObject ((k, t) :: fields)) (JObj props))
      with (match own_prop k props with
            | Some vk => has_type t vk
            | None => false
            end && has_type (TObject fields) (JObj props)).
    rewrite andb_true_iff, IH. split.
    + intros [Hk Hrest] k' t' [[= -> ->]|Hin]%elem_of_cons; [|by apply Hrest].
      destruct (own_prop k props) as [v|]; [by exists v | done].
    + intros H. split.
      * destruct (H k t) as (v & -> & Hv); [left | done].
      * intros k' t' Hin. apply H. by right.
Qed.

End TSFacts.

(** ** Rendering *)

Module ViewFacts.
Import JS Api React AgentProgressView AgentProgressHeap ResultsSectionView TS JSFacts.

Lemma mount_all_unfold cs :
  (fix mount_all (cs : list child) : option (list html) :=
     match cs with
     | [] => Some []
     | c :: rest =>
         match mount c, mount_all rest with
         | Some d, Some ds => Some (d ++ ds)
         | _, _ => None
         end
     end) cs = mount_all cs.
Proof. induction cs as [|c cs IH]; [done|]. cbn [mount_all]. by rewrite <- IH. Qed.

Lemma mount_CElem tag props cs :
  mount (CElem tag props cs) =
    match mount_all cs with
    | Some ds => Some [DNode tag props ds]
    | None => None
    end.
Proof. cbn [mount]. by rewrite mount_all_unfold. Qed.

Lemma mount_CArray items : mount (CArray items) = mount_all items.
Proof. cbn [mount]. by rewrite mount_all_unfold. Qed.

Lemma mount_all_is_Some cs :
  Forall (fun c => is_Some (mount c)) cs -> is_Some (mount_all cs).
Proof.
  induction 1 as [|c cs [d Hd] _ [ds Hds]]; [by eexists|].
  cbn [mount_all]. rewrite Hd, Hds. by eexists.
Qed.

Lemma mount_all_None cs c :
  c ∈ cs -> mount c = None -> mount_all cs = None.
Proof.
  induction 1 as [c cs|c c' cs _ IH]; intros Hc; cbn [mount_all].
  - by rewrite Hc.
  - rewrite (IH Hc). by destruct (mount c').
Qed.

Lemma mountable_CText s : mountable (CText s).
Proof. by eexists. Qed.

Lemma mountable_CNum q : mountable (CNum q).
Proof. by eexists. Qed.

Lemma mountable_CEmpty : mountable CEmpty.
Proof. by eexists. Qed.

Lemma mountable_CFunction name : mountable (CFunction name).
Proof. by eexists. Qed.

Lemma mountable_CElem tag props cs :
  Forall mountable cs -> mountable (CElem tag props cs).
Proof.
  intros H. unfold mountable. rewrite mount_CElem.
  destruct (mount_all_is_Some cs H) as [ds ->]. by eexists.
Qed.

Lemma mountable_CArray items :
  Forall mountable items -> mountable (CArray items).
Proof. intros H. unfold mountable. rewrite mount_CArray. by apply mount_all_is_Some. Qed.

Lemma Forall_imap {A B} (P : B -> Prop) (f : nat -> A -> B) (l : list A) :
  (forall i x, P (f i x)) -> Forall P (imap f l).
Proof.
  revert f. induction l as [|x l IH]; intros f H; cbn [imap]; constructor; [done|].
  apply IH. intros i y. apply H.
Qed.

Lemma mountable_and_string o k :
  (forall s, mountable (k s)) -> mountable (and_string o k).
Proof.
  intros H. unfold and_string. destruct o as [s|]; [|apply mountable_CEmpty].
  destruct (truthy_string s); [apply H | apply mountable_CText].
Qed.

Lemma mountable_and_number o k :
  (forall q, mountable (k q)) -> mountable (and_number o k).
Proof.
  intros H. unfold and_number. destruct o as [q|]; [|apply mountable_CEmpty].
  destruct (truthy_number q); [apply H | apply mountable_CNum].
Qed.

Create HintDb mountable.
#[export] Hint Resolve mountable_CText mountable_CNum mountable_CEmpty
  mountable_CFunction mountable_CElem mountable_CArray Forall_imap
  mountable_and_string mountable_and_number : mountable.
#[export] Hint Constructors Forall : mountable.

Lemma statusEmoji_dom s :
  s ∈ dom statusEmoji <->
  s ∈ ["idle"; "analyzing"; "planning"; "shopping"; "designing"; "completed"; "error"].
Proof.
  unfold statusEmoji. by rewrite dom_list_to_map_L, elem_of_list_to_set.
Qed.

(** A known status name shows its own emoji. *)
Lemma emoji_child_known s :
  s ∈ dom statusEmoji -> exists e, statusEmoji !! s = Some e /\ emoji_child s = CText e.
Proof.
  rewrite statusEmoji_dom. intros Hin.
  repeat (apply elem_of_cons in Hin as [->|Hin]; [eexists; split; vm_compute; reflexivity|]).
  by apply elem_of_nil in Hin.
Qed.

(** A name that is neither an own key nor inherited falls back. *)
Lemma emoji_child_fallback s :
  s ∉ dom statusEmoji -> s <> "__proto__" -> s ∉ object_prototype_methods ->
  emoji_child s = CText "⏳".
Proof.
  intros Hdom Hproto Hmeth. unfold emoji_child, bracket.
  apply not_elem_of_dom in Hdom. rewrite Hdom.
  destruct (String.eqb_spec s "__proto__"); [done|].
  destruct (existsb (String.eqb s) object_prototype_methods) eqn:Hex; [|done].
  apply existsb_exists in Hex as (m & Hm & Heq). apply String.eqb_eq in Heq as <-.
  by apply list_elem_of_In in Hm.
Qed.

Lemma emoji_child_mountable s : s <> "__proto__" -> mountable (emoji_child s).
Proof.
  intros Hproto. unfold emoji_child, bracket.
  destruct (statusEmoji !! s) as [e|].
  - destruct (truthy_string e); apply mountable_CText.
  - destruct (String.eqb_spec s "__proto__"); [done|].
    destruct (existsb _ _); [apply mountable_CFunction | apply mountable_CText].
Qed.

Lemma mount_all_imap {A} (f : nat -> A -> child) (g : nat -> A -> html) (l : list A) :
  (forall i x, mount (f i x) = Some [g i x]) ->
  mount_all (imap f l) = Some (imap g l).
Proof.
  revert f g. induction l as [|x l IH]; intros f g H; [done|].
  cbn [imap mount_all]. rewrite H, (IH (f ∘ S) (g ∘ S)); [done|].
  intros i y. apply H.
Qed.

Lemma text_contents_unfold ds :
  (fix all (ds : list html) : list string :=
     match ds with
     | [] => []
     | d' :: rest => text_content d' ++ all rest
     end) ds = text_contents ds.
Proof. induction ds as [|d ds IH]; [done|]. cbn [text_contents]. by rewrite <- IH. Qed.

Lemma text_content_DNode tag props ds :
  text_content (DNode tag props ds) = text_contents ds.
Proof. cbn [text_content]. apply text_contents_unfold. Qed.

(** A new array leaves every array that was there as it is. *)
Lemma alloc_spec a (heap : gmap nat array) r heap' :
  alloc a heap = (r, heap') ->
  heap' !! r = Some a /\
  heap ⊆ heap' /\
  (forall l x, heap !! l = Some x -> heap' !! l = Some x).
Proof.
  unfold alloc. intros [= <- <-].
  assert (heap !! fresh (dom heap) = None) as Hfresh
    by (apply not_elem_of_dom, is_fresh).
  split; [apply lookup_insert_eq|].
  split; [by apply insert_subseteq|].
  intros l x Hl. rewrite lookup_insert_ne; [done|]. congruence.
Qed.

Lemma map_strings_spec f arr (heap : gmap nat array) l :
  heap !! arr = Some (StringArray l) ->
  map_strings f arr heap = Some (alloc (ElementArray (imap f l)) heap).
Proof. unfold map_strings. by intros ->. Qed.

Lemma map_messages_spec f arr (heap : gmap nat array) l :
  heap !! arr = Some (MessageArray l) ->
  map_messages f arr heap = Some (alloc (ElementArray (imap f l)) heap).
Proof. unfold map_messages. by intros ->. Qed.

Lemma array_slice_messages start arr (heap : gmap nat array) l :
  heap !! arr = Some (MessageArray l) ->
  array_slice start arr heap = Some (alloc (MessageArray (slice start l)) heap).
Proof. unfold array_slice. by intros ->. Qed.

Lemma array_length_strings arr (heap : gmap nat array) l :
  heap !! arr = Some (StringArray l) -> array_length arr heap = Some (length l).
Proof. unfold array_length. by intros ->. Qed.

Lemma elements_spec r (heap : gmap nat array) l :
  heap !! r = Some (ElementArray l) -> elements r heap = l.
Proof. unfold elements. by intros ->. Qed.

Section ProgressFacts.
Variable toLocaleTimeString : string -> string.

(** The rows of the activity log, mounted. *)
Lemma message_rows_mounted (l : list AgentMessage) :
  exists rows,
    mount_all (imap (message_item toLocaleTimeString) l) = Some rows /\
    text_content <$> rows =
      (fun msg => [toLocaleTimeString (timestamp msg); message msg]) <$> l.
Proof.
  eexists. split.
  - apply mount_all_imap. intros i msg. unfold message_item. rewrite mount_CElem.
    cbn [mount_all]. rewrite !mount_CElem. cbn [mount_all mount List.app]. reflexivity.
  - rewrite fmap_imap, <- imap_const. apply imap_ext. intros i msg _.
    cbn [compose const]. rewrite !text_content_DNode. reflexivity.
Qed.

(** The component by reference renders what the component renders on the
    snapshot the object holds, and every array that was in the heap is
    still there, unchanged. *)
Lemma AgentProgress_by_reference_spec heap o st :
  read_status heap o = Some st ->
  exists heap',
    AgentProgress_by_reference toLocaleTimeString (Some o) heap
      = Some (AgentProgress toLocaleTimeString (Some st), heap') /\
    heap ⊆ heap' /\
    read_status heap' o = Some st.
Proof.
  unfold read_status.
  destruct (heap !! steps_completed_ref o) as [[sc| |]|] eqn:Hsc; try done.
  destruct (heap !! messages_ref o) as [[|ms|]|] eqn:Hms; try done.
  destruct (heap !! errors_ref o) as [[es| |]|] eqn:Hes; try done.
  intros [= <-].
  unfold AgentProgress_by_reference.
  rewrite (map_strings_spec _ _ _ _ Hsc).
  destruct (alloc (ElementArray (imap step_item sc)) heap) as [r1 h1] eqn:E1.
  apply alloc_spec in E1 as (N1 & S1 & O1).
  cbn [mbind option_bind].
  rewrite (array_slice_messages _ _ _ _ (O1 _ _ Hms)).
  destruct (alloc (MessageArray (slice (-5) ms)) h1) as [r2 h2] eqn:E2.
  apply alloc_spec in E2 as (N2 & S2 & O2).
  cbn [mbind option_bind].
  rewrite (map_messages_spec _ _ _ _ N2).
  destruct (alloc (ElementArray (imap (message_item toLocaleTimeString) (slice (-5) ms))) h2)
    as [r3 h3] eqn:E3.
  apply alloc_spec in E3 as (N3 & S3 & O3).
  cbn [mbind option_bind].
  rewrite (array_length_strings _ _ _ (O3 _ _ (O2 _ _ (O1 _ _ Hes)))).
  cbn [mbind option_bind].
  destruct (0 <? length es)%nat eqn:Hlen.
  - rewrite (map_strings_spec _ _ _ _ (O3 _ _ (O2 _ _ (O1 _ _ Hes)))).
    destruct (alloc (ElementArray (imap error_item es)) h3) as [r4 h4] eqn:E4.
    apply alloc_spec in E4 as (N4 & S4 & O4).
    cbn [mbind option_bind].
    rewrite (elements_spec _ _ _ N4), (elements_spec _ _ _ (O4 _ _ N3)),
      (elements_spec _ _ _ (O4 _ _ (O3 _ _ (O2 _ _ N1)))).
    exists h4. split.
    + unfold AgentProgress, errors_section, shown_messages.
      cbn [status current_step steps_completed progress_percentage messages errors].
      by rewrite Hlen.
    + split; [by repeat (etrans; [eassumption|])|].
      by rewrite (O4 _ _ (O3 _ _ (O2 _ _ (O1 _ _ Hsc)))),
        (O4 _ _ (O3 _ _ (O2 _ _ (O1 _ _ Hms)))),
        (O4 _ _ (O3 _ _ (O2 _ _ (O1 _ _ Hes)))).
  - cbn [mbind option_bind].
    rewrite (elements_spec _ _ _ N3), (elements_spec _ _ _ (O3 _ _ (O2 _ _ N1))).
    exists h3. split.
    + unfold AgentProgress, errors_section, shown_messages.
      cbn [status current_step steps_completed progress_percentage messages errors].
      by rewrite Hlen.
    + split; [by repeat (etrans; [eassumption|])|].
      by rewrite (O3 _ _ (O2 _ _ (O1 _ _ Hsc))), (O3 _ _ (O2 _ _ (O1 _ _ Hms))),
        (O3 _ _ (O2 _ _ (O1 _ _ Hes))).
Qed.

(** C7. The activity log, once mounted, consists of one row per message
    of the last min(5, length m) messages of the snapshot, in their order,
    each row showing the time and the text of its message; and rendering
    leaves the messages array (and every other array of the heap) as it was:
    the slice and the mapped rows are new arrays. *)
Theorem activity_log_shows_last_five (st : AgentStatus) :
  let m := messages st in
  let last := drop (length m - Nat.min 5 (length m)) m in
  length last = Nat.min 5 (length m) /\
  (exists older, m = older ++ last) /\
  (exists rows,
     (children_of (AgentProgress toLocaleTimeString (Some st)) !! 4%nat) ≫= mount =
       Some [DNode "div" [className "messages-log"]
               [ DNode "h4" [] [DText "Activity Log:"];
                 DNode "div" [className "messages-container"] rows ]] /\
     text_content <$> rows =
       (fun msg => [toLocaleTimeString (timestamp msg); message msg]) <$> last) /\
  (forall (heap : gmap nat array) (o : StatusObject),
     read_status heap o = Some st ->
     exists heap',
       AgentProgress_by_reference toLocaleTimeString (Some o) heap
         = Some (AgentProgress toLocaleTimeString (Some st), heap') /\
       heap ⊆ heap' /\
       heap' !! messages_ref o = Some (MessageArray m) /\
       read_status heap' o = Some st).
Proof.
  intros m last.
  assert (shown_messages st = last) as Hshown.
  { unfold shown_messages, last. fold m. rewrite slice_last_five. f_equal. lia. }
  split; [rewrite <- Hshown; apply slice_last_five_length|].
  split.
  { exists (take (length m - 5) m). rewrite <- Hshown. symmetry.
    apply slice_last_five_suffix. }
  split.
  { destruct (message_rows_mounted last) as (rows & Hrows & Htext).
    exists rows. split; [|done].
    cbn [AgentProgress children_of lookup list_lookup mbind option_bind].
    rewrite Hshown, mount_CElem. cbn [mount_all].
    rewrite !mount_CElem. cbn [mount_all]. rewrite mount_CArray, Hrows.
    cbn [mount List.app]. by rewrite app_nil_r. }
  intros heap o Hread.
  destruct (AgentProgress_by_reference_spec heap o st Hread) as (heap' & Hrun & Hsub & Hread').
  exists heap'. split; [done|]. split; [done|]. split; [|done].
  unfold read_status in Hread'. fold m.
  destruct (heap' !! steps_completed_ref o) as [[| |]|]; try done.
  destruct (heap' !! messages_ref o) as [[|ms|]|]; try done.
  destruct (heap' !! errors_ref o) as [[| |]|]; try done.
  injection Hread' as <-. done.
Qed.

Lemma errors_section_shown (errs : list string) :
  errors_section errs <> CEmpty <-> errs <> [].
Proof. destruct errs; cbn; split; congruence. Qed.

Lemma errors_section_mountable errs : mountable (errors_section errs).
Proof.
  unfold errors_section. destruct (0 <? length errs)%nat; [|apply mountable_CEmpty].
  unfold error_item. auto 10 with mountable.
Qed.

(** Rendering succeeds for every snapshot whose status is not
    [__proto__]. *)
Lemma AgentProgress_mountable st :
  status st <> "__proto__" ->
  mountable (AgentProgress toLocaleTimeString (Some st)).
Proof.
  intros Hproto. pose proof (emoji_child_mountable _ Hproto).
  pose proof (errors_section_mountable (errors st)).
  unfold AgentProgress, step_item, message_item. auto 20 with mountable.
Qed.

(** C10, at the failing inputs. A status named like a member of
    [Object.prototype] is found by the lookup although it is none of the
    seven keys: for [__proto__] the child is an object and mounting throws;
    for [constructor] the child is a function and no emoji is shown. *)
Theorem AgentProgress_inherited_status_key :
  let snapshot name :=
    {| status := name; current_step := "Working"; steps_completed := [];
       progress_percentage := 0; messages := []; errors := [] |} in
  ("__proto__" ∉ dom statusEmoji) /\
  mount (AgentProgress toLocaleTimeString (Some (snapshot "__proto__"))) = None /\
  ("constructor" ∉ dom statusEmoji) /\
  emoji_child "constructor" = CFunction "constructor" /\
  mount (CElem "span" [className "status-emoji"] [emoji_child "constructor"]) =
    Some [DNode "span" [className "status-emoji"] []].
Proof.
  intros snapshot.
  split; [rewrite statusEmoji_dom; intros Hin;
          repeat (apply elem_of_cons in Hin as [[=]|Hin]); by apply elem_of_nil in Hin|].
  split; [by vm_compute|].
  split; [rewrite statusEmoji_dom; intros Hin;
          repeat (apply elem_of_cons in Hin as [[=]|Hin]); by apply elem_of_nil in Hin|].
  split; by vm_compute.
Qed.

(** Away from the names inherited from [Object.prototype]: a null status
    renders the waiting placeholder, a status name that is neither one of
    the seven keys nor inherited shows the hourglass, the Errors section is
    rendered exactly for a non-empty error list, and rendering succeeds
    whenever the status is not [__proto__]. *)
Theorem AgentProgress_total_off_prototype :
  (AgentProgress toLocaleTimeString None = waiting_placeholder /\
   mountable waiting_placeholder) /\
  (forall s, s ∉ dom statusEmoji -> s <> "__proto__" ->
             s ∉ object_prototype_methods -> emoji_child s = CText "⏳") /\
  (forall st,
     children_of (AgentProgress toLocaleTimeString (Some st)) !! 5%nat
       = Some (errors_section (errors st)) /\
     (errors_section (errors st) <> CEmpty <-> errors st <> [])) /\
  (forall st, status st <> "__proto__" ->
              mountable (AgentProgress toLocaleTimeString (Some st))).
Proof.
  split; [split; [done | by eexists]|].
  split; [apply emoji_child_fallback|].
  split; [intros st; split; [done | apply errors_section_shown]|].
  apply AgentProgress_mountable.
Qed.

End ProgressFacts.

Section ResultsFacts.
Variable VITE_API_URL : option string.
Variable toFixed : nat -> Q -> string.

Lemma furniture_card_mountable index item :
  mountable (furniture_card VITE_API_URL index item).
Proof. unfold furniture_card. auto 20 with mountable. Qed.

Lemma ResultsSection_mountable results :
  mountable (ResultsSection VITE_API_URL toFixed results).
Proof.
  pose proof furniture_card_mountable.
  unfold ResultsSection. auto 20 with mountable.
Qed.

Lemma has_type_nullable {A} (t : ts_type) (f : A -> json) (o : option A) :
  (forall a, has_type t (f a) = true) ->
  has_type (TUnion t TNull) (opt_json f o) = true.
Proof.
  intros H. destruct o as [a|]; cbn [opt_json has_type]; [by rewrite H | apply orb_true_r].
Qed.

Lemma FurnitureItem_to_json_typed item :
  has_type (TObject FurnitureItem_App) (FurnitureItem_to_json item) = true.
Proof.
  apply TSFacts.has_type_object. intros k t Hin.
  apply elem_of_cons in Hin as [[= -> ->]|Hin]; [by eexists|].
  repeat (apply elem_of_cons in Hin as [[= -> ->]|Hin];
          [eexists; split; [reflexivity | by apply has_type_nullable]|]).
  by apply elem_of_nil in Hin.
Qed.

(** C5. In both declarations of FurnitureItem, title is the only field
    whose type excludes null and each of the other thirteen admits it;
    every item record is a value of that type, and the card and the whole
    results section render for every combination of null fields. *)
Theorem FurnitureItem_only_title_excludes_null :
  FurnitureItem_ResultsSection = FurnitureItem_App /\
  FurnitureItem_App.*1 =
    [ "title"; "price"; "google_link"; "direct_link"; "source"; "delivery";
      "product_rating"; "product_reviews"; "store_rating"; "store_reviews";
      "category"; "position"; "image_url"; "local_image_path" ] /\
  (forall k t, (k, t) ∈ FurnitureItem_App -> (admits_null t = false <-> k = "title")) /\
  length (filter (fun kt => admits_null kt.2 = true) FurnitureItem_App) = 13%nat /\
  (forall item, has_type (TObject FurnitureItem_App) (FurnitureItem_to_json item) = true) /\
  (forall index item, is_Some (mount (furniture_card VITE_API_URL index item))) /\
  (forall results, is_Some (mount (ResultsSection VITE_API_URL toFixed results))).
Proof.
  split; [done|]. split; [done|].
  split.
  { intros k t Hin.
    repeat (apply elem_of_cons in Hin as [[= -> ->]|Hin]; [by vm_compute|]).
    by apply elem_of_nil in Hin. }
  split; [done|].
  split; [apply FurnitureItem_to_json_typed|].
  split; [apply furniture_card_mountable | apply ResultsSection_mountable].
Qed.
End ResultsFacts.

End ViewFacts.

(** ** The status payload *)

Module PayloadFacts.
Import JS Api React AgentProgressView TS Examples.

Lemma has_type_strings l : forallb (has_type TString) (map JStr l) = true.
Proof. by induction l. Qed.

Lemma has_type_messages l :
  forallb (has_type (TObject [("timestamp", TString); ("message", TString)]))
    (map AgentMessage_to_json l) = true.
Proof. by induction l. Qed.

Lemma AgentStatus_to_json_typed s :
  has_type (TObject AgentStatus_App) (AgentStatus_to_json s) = true.
Proof.
  destruct s as [st cs sc pp ms es].
  cbn -[forallb]. by rewrite !has_type_strings, has_type_messages.
Qed.

Section WithLocale.
Variable toLocaleTimeString : string -> string.

(** C8. Both declarations of AgentStatus list exactly the six fields of
    the specification, with the stated types; a payload is an AgentStatus
    exactly when these six properties are present with those types, whatever
    else it carries; every snapshot the component takes is such a payload,
    and the rendering reads each of the six. *)
Theorem status_payload_is_the_six_spec_fields :
  AgentStatus_App = spec_status_fields TString TString /\
  AgentStatus_AgentProgress = AgentStatus_App /\
  length AgentStatus_App = 6%nat /\
  (forall props,
     has_type (TObject AgentStatus_App) (JObj props) = true <->
     forall k t, (k, t) ∈ spec_status_fields TString TString ->
       exists v, own_prop k props = Some v /\ has_type t v = true) /\
  (forall props props',
     (forall k, k ∈ (spec_status_fields TString TString).*1 ->
                own_prop k props = own_prop k props') ->
     has_type (TObject AgentStatus_App) (JObj props) =
     has_type (TObject AgentStatus_App) (JObj props')) /\
  (forall s, has_type (TObject AgentStatus_App) (AgentStatus_to_json s) = true) /\
  (let render s := AgentProgress toLocaleTimeString (Some s) in
   let m := {| timestamp := "2024-01-01T00:00:00"; message := "hello" |} in
   render (snapshot "idle" "a" [] 0 [] []) <> render (snapshot "error" "a" [] 0 [] []) /\
   render (snapshot "idle" "a" [] 0 [] []) <> render (snapshot "idle" "b" [] 0 [] []) /\
   render (snapshot "idle" "a" [] 0 [] []) <> render (snapshot "idle" "a" ["analyze"] 0 [] []) /\
   render (snapshot "idle" "a" [] 0 [] []) <> render (snapshot "idle" "a" [] 25 [] []) /\
   render (snapshot "idle" "a" [] 0 [] []) <> render (snapshot "idle" "a" [] 0 [m] []) /\
   render (snapshot "idle" "a" [] 0 [] []) <> render (snapshot "idle" "a" [] 0 [] ["boom"])).
Proof.
  split; [done|]. split; [done|]. split; [done|].
  split; [intros props; apply TSFacts.has_type_object|].
  split.
  { intros props props' Hsame.
    assert (forall k, k ∈ (spec_status_fields TString TString).*1 ->
                      own_prop k props = own_prop k props') as H by done.
    cbn -[own_prop].
    rewrite !(H "status"), !(H "current_step"), !(H "steps_completed"),
      !(H "progress_percentage"), !(H "messages"), !(H "errors");
      first [done | apply list_elem_of_In; cbn; tauto]. }
  split; [apply AgentStatus_to_json_typed|].
  cbv zeta. repeat split; intros [=].
Qed.

End WithLocale.

End PayloadFacts.

(** ** The session states *)

Module StateFacts.
Import SessionStates AgentProgressView.

Lemma wire_names :
  wire_name <$> all_statuses =
    ["idle"; "analyzing"; "planning"; "shopping"; "designing"; "completed"; "error"].
Proof. reflexivity. Qed.

Lemma all_statuses_complete (st : Status) : st ∈ all_statuses.
Proof. destruct st; apply list_elem_of_In; cbn; tauto. Qed.

Lemma ends_polling_terminal s :
  App.ends_polling s = true <-> exists st, terminal st = true /\ s = wire_name st.
Proof.
  unfold App.ends_polling. rewrite orb_true_iff, !String.eqb_eq. split.
  - intros [->| ->]; [by exists Completed | by exists Error].
  - intros (st & Ht & ->). destruct st; try discriminate Ht; [by left | by right].
Qed.

(** C2. The keys of statusEmoji are exactly the names of the seven
    session states (in the client's lower-case spelling), the seven names
    are distinct, and a status string ends polling exactly when it names a
    terminal state, Completed or Error; a tick whose requests succeed clears
    the polling flag for these two strings and for no other. *)
Theorem client_statuses_are_the_seven_states :
  dom statusEmoji = list_to_set (wire_name <$> all_statuses) /\
  (forall st : Status, st ∈ all_statuses) /\
  NoDup (wire_name <$> all_statuses) /\
  length all_statuses = 7%nat /\
  (forall s, App.ends_polling s = true <->
             exists st, terminal st = true /\ s = wire_name st) /\
  (forall s, App.ends_polling s = true -> s ∈ dom statusEmoji) /\
  (forall env srv sid s p r w,
     Api.get_status srv sid = Api.Resolve s ->
     Api.get_plan srv sid = Api.Resolve p ->
     Api.get_results srv sid = Api.Resolve r ->
     App.isPolling (App.app w) = true ->
     (App.isPolling (App.app (App.after (App.pollTick env srv sid) w)) = false <->
      exists st, terminal st = true /\ Api.status s = wire_name st)).
Proof.
  split; [unfold statusEmoji; by rewrite dom_list_to_map_L|].
  split; [apply all_statuses_complete|].
  split.
  { rewrite wire_names. apply NoDup_ListNoDup.
    repeat constructor; cbn; intuition discriminate. }
  split; [done|].
  split; [apply ends_polling_terminal|].
  split.
  - intros s. unfold App.ends_polling. rewrite orb_true_iff, !String.eqb_eq.
    intros [->| ->]; apply ViewFacts.statusEmoji_dom, list_elem_of_In; cbn; tauto.
  - intros env srv sid s p r w Hs Hp Hr Hpolling.
    rewrite (AppFacts.pollTick_polling_flag env srv sid s p r w Hs Hp Hr).
    rewrite <- ends_polling_terminal. rewrite Hpolling.
    by destruct (App.ends_polling (Api.status s)).
Qed.

End StateFacts.

(** ** The pipeline *)

Module PipelineFacts.
Import Orchestrator.

Section WithWeights.
Variable target : Stage -> Z.
Hypothesis Hweights : weights_advance target.

Lemma execute_stage_progress now r sess :
  progress_bounded target sess ->
  (progress_percentage sess <= progress_percentage (execute_stage target now r sess))%Z /\
  progress_bounded target (execute_stage target now r sess).
Proof.
  destruct Hweights as (H0 & H1 & H2 & H3).
  unfold progress_bounded, execute_stage.
  destruct (status sess) eqn:Hst; cbn [active_stage]; intros Hb;
    try (rewrite Hst; cbn [active_stage]; by split);
    destruct r; cbn; split; try done; lia.
Qed.

Lemma run_progress rs sess :
  progress_bounded target sess ->
  (progress_percentage sess <= progress_percentage (run target rs sess))%Z.
Proof.
  revert sess. induction rs as [|[now r] rs IH]; intros sess Hb; cbn [run]; [lia|].
  destruct (execute_stage_progress now r sess Hb) as [Hle Hb'].
  specialize (IH _ Hb'). lia.
Qed.

Lemma run_bounded rs sess :
  progress_bounded target sess -> progress_bounded target (run target rs sess).
Proof.
  revert sess. induction rs as [|[now r] rs IH]; intros sess Hb; cbn [run]; [done|].
  apply IH. by apply execute_stage_progress.
Qed.

Lemma run_app rs1 rs2 sess :
  run target (rs1 ++ rs2) sess = run target rs2 (run target rs1 sess).
Proof. revert sess. induction rs1 as [|[now r] rs1 IH]; intros sess; cbn; [done | apply IH]. Qed.

(** No stage executes in a session that is not running. *)
Lemma run_inactive rs sess :
  active_stage (status sess) = None -> run target rs sess = sess.
Proof.
  intros H. induction rs as [|[now r] rs IH]; [done|].
  cbn [run]. unfold execute_stage. by rewrite H.
Qed.

Lemma started_session_bounded : progress_bounded target started_session.
Proof. destruct Hweights as (H0 & _). exact H0. Qed.

(** C4. For a started session and any course of the pipeline, a later
    status read never shows less progress than an earlier one; once a read
    shows Error, every later read shows the same session: no stage has
    executed, and progress_percentage and steps_completed are unchanged. *)
Theorem progress_never_decreases_and_freezes_on_error
    (rs1 rs2 : list (nat * StageResult)) :
  let earlier := run target rs1 started_session in
  let later := run target (rs1 ++ rs2) started_session in
  (progress_percentage earlier <= progress_percentage later)%Z /\
  (status earlier = Error ->
     later = earlier /\
     status later = Error /\
     progress_percentage later = progress_percentage earlier /\
     steps_completed later = steps_completed earlier).
Proof.
  intros earlier later. unfold later. rewrite run_app. fold earlier. split.
  - apply run_progress, run_bounded, started_session_bounded.
  - intros Herr. rewrite run_inactive; [done | by rewrite Herr].
Qed.

End WithWeights.

Lemma progress_never_decreases_witness :
  (progress_percentage
     (run suggested_target
        [(1%nat, Succeeded "room" []); (2%nat, Failed "timeout")] started_session)
   <= progress_percentage
        (run suggested_target
           ([(1%nat, Succeeded "room" []); (2%nat, Failed "timeout")]
              ++ [(3%nat, Succeeded "late" [])]) started_session))%Z /\
  run suggested_target
    ([(1%nat, Succeeded "room" []); (2%nat, Failed "timeout")]
       ++ [(3%nat, Succeeded "late" [])]) started_session
  = run suggested_target
      [(1%nat, Succeeded "room" []); (2%nat, Failed "timeout")] started_session.
Proof.
  assert (weights_advance suggested_target) as Hweights
    by (unfold weights_advance; simpl; lia).
  destruct (progress_never_decreases_and_freezes_on_error
              suggested_target Hweights
              [(1%nat, Succeeded "room" []); (2%nat, Failed "timeout")]
              [(3%nat, Succeeded "late" [])]) as [Hle Hfreeze].
  split; [exact Hle|]. apply Hfreeze. reflexivity.
Defined.

End PipelineFacts.

(** ** What the page shows *)

Module ScreenFacts.
Import JS Api App React AppView ViewFacts.

Lemma has_class_any_unfold c xs :
  (fix any (xs : list child) : bool :=
     match xs with
     | [] => false
     | y :: rest => has_class c y || any rest
     end) xs = has_class_any c xs.
Proof. induction xs as [|x xs IH]; [done|]. cbn [has_class_any]. by rewrite <- IH. Qed.

Lemma has_class_CElem c tag props cs :
  has_class c (CElem tag props cs) =
    existsb (prop_is_class c) props || has_class_any c cs.
Proof. cbn [has_class]. by rewrite has_class_any_unfold. Qed.

Lemma has_class_CArray c items : has_class c (CArray items) = has_class_any c items.
Proof. cbn [has_class]. by rewrite has_class_any_unfold. Qed.

Lemma has_class_any_imap {A} c (f : nat -> A -> child) (l : list A) :
  (forall i x, has_class c (f i x) = false) -> has_class_any c (imap f l) = false.
Proof.
  revert f. induction l as [|x l IH]; intros f H; [done|].
  cbn [imap has_class_any]. rewrite H, IH; [done|]. intros i y. apply H.
Qed.

Lemma has_class_and_string c o k :
  (forall s, has_class c (k s) = false) -> has_class c (and_string o k) = false.
Proof.
  intros H. unfold and_string. destruct o as [s|]; [|done].
  by destruct (truthy_string s).
Qed.

Lemma has_class_and_number c o k :
  (forall q, has_class c (k q) = false) -> has_class c (and_number o k) = false.
Proof.
  intros H. unfold and_number. destruct o as [q|]; [|done].
  by destruct (truthy_number q).
Qed.

Ltac each_landmark H :=
  destruct H as [->|[->|[->|[->| ->]]]].

(** Evaluate [has_class] on a tree whose variable leaves are known to
    lack the class. *)
Ltac class_by_leaves :=
  cbn;
  repeat match goal with
         | H : has_class _ _ = false |- _ => rewrite H; clear H
         end;
  reflexivity.

(** The items of the three lists carry none of the landmarks. *)
Lemma items_no_landmark {A} c (f : nat -> A -> child) (l : list A) :
  (forall i x, has_class c (f i x) = false) ->
  has_class c (CArray (imap f l)) = false.
Proof. intros H. rewrite has_class_CArray. by apply has_class_any_imap. Qed.

Section WithEnvironment.
Variable VITE_API_URL : option string.
Variable toLocaleTimeString : string -> string.
Variable toFixed : nat -> Q -> string.
Variable isDragActive : bool.

Lemma emoji_child_no_class c s : has_class c (AgentProgressView.emoji_child s) = false.
Proof.
  unfold AgentProgressView.emoji_child.
  destruct (AgentProgressView.bracket _ _) as [e| | |]; [by destruct (truthy_string e)|done..].
Qed.

Lemma errors_section_no_landmark c errs :
  landmark c -> has_class c (AgentProgressView.errors_section errs) = false.
Proof.
  intros Hc. unfold AgentProgressView.errors_section.
  destruct (0 <? length errs)%nat; [|done].
  assert (has_class c (CArray (imap AgentProgressView.error_item errs)) = false) as H.
  { apply items_no_landmark. intros i x. each_landmark Hc; reflexivity. }
  revert H. generalize (CArray (imap AgentProgressView.error_item errs)). intros a H.
  each_landmark Hc; class_by_leaves.
Qed.

Lemma AgentProgress_no_landmark c o :
  landmark c ->
  has_class c (AgentProgressView.AgentProgress toLocaleTimeString o) = false.
Proof.
  intros Hc. destruct o as [st|]; [|each_landmark Hc; reflexivity].
  unfold AgentProgressView.AgentProgress.
  pose proof (emoji_child_no_class c (status st)) as H1.
  pose proof (errors_section_no_landmark c (errors st) Hc) as H2.
  assert (has_class c (CArray (imap AgentProgressView.step_item (steps_completed st)))
          = false) as H3.
  { apply items_no_landmark. intros i x. each_landmark Hc; reflexivity. }
  assert (has_class c (CArray (imap (AgentProgressView.message_item toLocaleTimeString)
                                 (AgentProgressView.shown_messages st))) = false) as H4.
  { apply items_no_landmark. intros i x. each_landmark Hc; reflexivity. }
  revert H1 H2 H3 H4.
  generalize (AgentProgressView.emoji_child (status st))
             (AgentProgressView.errors_section (errors st))
             (CArray (imap AgentProgressView.step_item (steps_completed st)))
             (CArray (imap (AgentProgressView.message_item toLocaleTimeString)
                        (AgentProgressView.shown_messages st))).
  intros a b d e H1 H2 H3 H4.
  each_landmark Hc; class_by_leaves.
Qed.
Lemma furniture_card_no_landmark c index item :
  landmark c ->
  has_class c (ResultsSectionView.furniture_card VITE_API_URL index item) = false.
Proof.
  intros Hc. unfold ResultsSectionView.furniture_card.
  repeat match goal with
  | |- context [and_string ?o ?k] =>
      let H := fresh "H" in
      assert (has_class c (and_string o k) = false) as H
        by (apply has_class_and_string; intros; each_landmark Hc; reflexivity);
      revert H; generalize (and_string o k); intros ? H
  | |- context [and_number ?o ?k] =>
      let H := fresh "H" in
      assert (has_class c (and_number o k) = false) as H
        by (apply has_class_and_number; intros; each_landmark Hc; reflexivity);
      revert H; generalize (and_number o k); intros ? H
  end.
  each_landmark Hc; class_by_leaves.
Qed.

Lemma ResultsSection_landmark c results :
  landmark c ->
  has_class c (ResultsSectionView.ResultsSection VITE_API_URL toFixed results) =
    String.eqb c "results-section".
Proof.
  intros Hc. unfold ResultsSectionView.ResultsSection.
  assert (has_class c
            (CArray (imap (ResultsSectionView.furniture_card VITE_API_URL)
                       (furniture_items results))) = false) as H.
  { apply items_no_landmark. intros i x. by apply furniture_card_no_landmark. }
  revert H.
  generalize (CArray (imap (ResultsSectionView.furniture_card VITE_API_URL)
                        (furniture_items results))).
  intros a H. each_landmark Hc; class_by_leaves.
Qed.

Lemma DesignPlan_landmark c markdown :
  landmark c ->
  has_class c (DesignPlanView.DesignPlan markdown) = String.eqb c "design-plan".
Proof. intros Hc. each_landmark Hc; reflexivity. Qed.

Lemma UploadSection_landmark c :
  landmark c ->
  has_class c (UploadSectionView.UploadSection isDragActive) =
    String.eqb c "upload-section".
Proof. intros Hc. destruct isDragActive; each_landmark Hc; reflexivity. Qed.

(** Which landmarks the tree returned by [App] carries, in terms of the
    state. *)
Lemma App_render_landmarks (s : AppState) :
  let v := App_render VITE_API_URL toLocaleTimeString toFixed isDragActive s in
  let on := truthy_opt_string (sessionId s) in
  has_class "upload-section" v = negb on /\
  has_class "agent-container" v = on /\
  has_class "reset-button" v = on && bool_decide (is_Some (finalResults s)) /\
  has_class "results-section" v = on && bool_decide (is_Some (finalResults s)) /\
  has_class "design-plan" v = on && truthy_string (designPlan s).
Proof.
  intros v on. unfold v, App_render, screen. fold on.
  assert (forall c, landmark c ->
            has_class c (UploadSectionView.UploadSection isDragActive)
              = String.eqb c "upload-section") as Hup
    by (intros; by apply UploadSection_landmark).
  assert (forall c, landmark c ->
            has_class c (AgentProgressView.AgentProgress toLocaleTimeString (agentStatus s))
              = false) as Hprog
    by (intros; by apply AgentProgress_no_landmark).
  assert (forall c, landmark c ->
            has_class c (reset_button s)
              = String.eqb c "reset-button" && bool_decide (is_Some (finalResults s))) as Hreset.
  { intros c Hc. unfold reset_button. destruct (finalResults s).
    - rewrite bool_decide_true by by eexists. each_landmark Hc; reflexivity.
    - rewrite bool_decide_false by (by intros [? [=]]). by rewrite andb_false_r. }
  assert (forall c, landmark c ->
            has_class c (results_panel VITE_API_URL toFixed s)
              = String.eqb c "results-section" && bool_decide (is_Some (finalResults s)))
    as Hres.
  { intros c Hc. unfold results_panel. destruct (finalResults s).
    - rewrite bool_decide_true by by eexists. rewrite andb_true_r.
      by apply ResultsSection_landmark.
    - rewrite bool_decide_false by (by intros [? [=]]). by rewrite andb_false_r. }
  assert (forall c, landmark c ->
            has_class c (plan_panel s)
              = String.eqb c "design-plan" && truthy_string (designPlan s)) as Hplan.
  { intros c Hc. unfold plan_panel. destruct (truthy_string (designPlan s)).
    - rewrite andb_true_r. by apply DesignPlan_landmark.
    - by rewrite andb_false_r. }
  revert Hup Hprog Hreset Hres Hplan.
  generalize (UploadSectionView.UploadSection isDragActive)
             (AgentProgressView.AgentProgress toLocaleTimeString (agentStatus s))
             (reset_button s) (results_panel VITE_API_URL toFixed s) (plan_panel s).
  intros up prog reset res pl Hup Hprog Hreset Hres Hplan.
  assert (landmark "upload-section") as L1 by (unfold landmark; tauto).
  assert (landmark "agent-container") as L2 by (unfold landmark; tauto).
  assert (landmark "reset-button") as L3 by (unfold landmark; tauto).
  assert (landmark "results-section") as L4 by (unfold landmark; tauto).
  assert (landmark "design-plan") as L5 by (unfold landmark; tauto).
  destruct on; cbn;
    rewrite ?(Hup _ L1), ?(Hup _ L2), ?(Hup _ L3), ?(Hup _ L4), ?(Hup _ L5),
      ?(Hprog _ L1), ?(Hprog _ L2), ?(Hprog _ L3), ?(Hprog _ L4), ?(Hprog _ L5),
      ?(Hreset _ L1), ?(Hreset _ L2), ?(Hreset _ L3), ?(Hreset _ L4), ?(Hreset _ L5),
      ?(Hres _ L1), ?(Hres _ L2), ?(Hres _ L3), ?(Hres _ L4), ?(Hres _ L5),
      ?(Hplan _ L1), ?(Hplan _ L2), ?(Hplan _ L3), ?(Hplan _ L4), ?(Hplan _ L5);
    cbn; rewrite ?orb_false_r; done.
Qed.

Lemma truthy_opt_string_false (o : option string) :
  truthy_opt_string o = false <-> o = None \/ o = Some "".
Proof.
  destruct o as [s|]; cbn; [|tauto]. unfold truthy_string.
  destruct (String.eqb_spec s ""); cbn; split; try tauto; try done.
  - intros _. right. by subst.
  - intros [[=]|[=]]. done.
Qed.

(** What the page shows, by the class names of its parts, in terms of the
    state of [App]: the upload screen when there is no session id (null or
    empty) and the agent screen otherwise, never both; on the agent screen
    the reset button and the results section appear together, exactly when
    results are stored, and the design plan appears exactly when the plan
    text is not empty. *)
Theorem App_render_shows_one_screen (s : AppState) :
  let shown c :=
    has_class c (App_render VITE_API_URL toLocaleTimeString toFixed isDragActive s)
      = true in
  (shown "upload-section" <-> sessionId s = None \/ sessionId s = Some "") /\
  (shown "agent-container" <-> ~ shown "upload-section") /\
  (shown "reset-button" <-> shown "agent-container" /\ finalResults s <> None) /\
  (shown "results-section" <-> shown "reset-button") /\
  (shown "design-plan" <-> shown "agent-container" /\ designPlan s <> "").
Proof.
  intros shown. unfold shown.
  destruct (App_render_landmarks s) as (-> & -> & -> & -> & ->).
  pose proof (truthy_opt_string_false (sessionId s)) as Hoff.
  assert (bool_decide (is_Some (finalResults s)) = true <-> finalResults s <> None) as Hres.
  { rewrite bool_decide_eq_true. symmetry. apply not_eq_None_Some. }
  assert (truthy_string (designPlan s) = true <-> designPlan s <> "") as Hplan.
  { unfold truthy_string. destruct (String.eqb_spec (designPlan s) ""); cbn; split; done. }
  rewrite !andb_true_iff, Hres, Hplan, negb_true_iff, Hoff.
  destruct (truthy_opt_string (sessionId s)); intuition congruence.
Qed.

Lemma mount_CElem_None tag props cs c :
  c ∈ cs -> mount c = None -> mount (CElem tag props cs) = None.
Proof. intros Hin Hc. rewrite mount_CElem. by rewrite (mount_all_None cs c Hin Hc). Qed.

Lemma mountable_is_not_None c : mountable c <-> mount c <> None.
Proof. unfold mountable. symmetry. apply not_eq_None_Some. Qed.

Lemma emoji_child_proto : AgentProgressView.emoji_child "__proto__" = CObject.
Proof. by vm_compute. Qed.

(** A snapshot whose status is [__proto__] cannot be mounted, whatever
    else it holds. *)
Lemma AgentProgress_proto_throws st :
  status st = "__proto__" ->
  mount (AgentProgressView.AgentProgress toLocaleTimeString (Some st)) = None.
Proof.
  intros Hst. unfold AgentProgressView.AgentProgress. rewrite Hst, emoji_child_proto.
  eapply mount_CElem_None; [apply list_elem_of_lookup; by exists 1%nat|].
  eapply mount_CElem_None; [apply list_elem_of_lookup; by exists 0%nat|].
  eapply mount_CElem_None; [apply list_elem_of_lookup; by exists 0%nat|].
  reflexivity.
Qed.

Lemma UploadSection_mountable : mountable (UploadSectionView.UploadSection isDragActive).
Proof.
  unfold UploadSectionView.UploadSection. destruct isDragActive; auto 20 with mountable.
Qed.

Lemma DesignPlan_mountable markdown : mountable (DesignPlanView.DesignPlan markdown).
Proof. unfold DesignPlanView.DesignPlan. auto 20 with mountable. Qed.

Lemma App_render_mountable (s : AppState) :
  (truthy_opt_string (sessionId s) = true ->
   mountable (AgentProgressView.AgentProgress toLocaleTimeString (agentStatus s))) ->
  mountable (App_render VITE_API_URL toLocaleTimeString toFixed isDragActive s).
Proof.
  intros Hprog.
  pose proof UploadSection_mountable as Hup.
  pose proof (DesignPlan_mountable (designPlan s)) as Hplan.
  assert (mountable (reset_button s)) as Hreset
    by (unfold reset_button; destruct (finalResults s); auto 10 with mountable).
  assert (mountable (results_panel VITE_API_URL toFixed s)) as Hres.
  { unfold results_panel. destruct (finalResults s); [|apply mountable_CEmpty].
    apply ResultsSection_mountable. }
  assert (mountable (plan_panel s)) as Hpl
    by (unfold plan_panel; destruct (truthy_string _); auto with mountable).
  unfold App_render, screen.
  destruct (truthy_opt_string (sessionId s)); cbn [negb].
  - specialize (Hprog eq_refl). auto 20 with mountable.
  - auto 20 with mountable.
Qed.

(** The page fails to mount exactly when the agent screen is shown with a
    status snapshot whose status string is [__proto__]; in every other state
    the whole tree of [App] mounts. *)
Theorem App_render_throws_iff_proto_status (s : AppState) :
  mount (App_render VITE_API_URL toLocaleTimeString toFixed isDragActive s) = None <->
  truthy_opt_string (sessionId s) = true /\
  exists st, agentStatus s = Some st /\ status st = "__proto__".
Proof.
  split.
  - intros Hnone.
    destruct (truthy_opt_string (sessionId s)) eqn:Hon.
    + destruct (agentStatus s) as [st|] eqn:Hst.
      * destruct (String.eqb_spec (status st) "__proto__") as [Hp|Hp]; [by eauto|].
        exfalso. eapply mountable_is_not_None; [|exact Hnone].
        apply App_render_mountable. intros _. rewrite Hst.
        by apply AgentProgress_mountable.
      * exfalso. eapply mountable_is_not_None; [|exact Hnone].
        apply App_render_mountable. intros _. rewrite Hst. by eexists.
    + exfalso. eapply mountable_is_not_None; [|exact Hnone].
      apply App_render_mountable. by rewrite Hon.
  - intros (Hon & st & Hst & Hproto).
    unfold App_render, screen. rewrite Hon, Hst. cbn [negb].
    eapply mount_CElem_None; [apply list_elem_of_lookup; by exists 2%nat|].
    eapply mount_CElem_None; [apply list_elem_of_lookup; by exists 0%nat|].
    eapply mount_CElem_None; [apply list_elem_of_lookup; by exists 0%nat|].
    eapply mount_CElem_None; [apply list_elem_of_lookup; by exists 0%nat|].
    eapply mount_CElem_None; [apply list_elem_of_lookup; by exists 0%nat|].
    eapply mount_CElem_None; [apply list_elem_of_lookup; by exists 0%nat|].
    by apply AgentProgress_proto_throws.
Qed.

End WithEnvironment.
End ScreenFacts.

(** ** The handlers over time *)

Module SessionFacts.
Import JS Api App AppView AppFacts ScreenFacts.

Section WithServer.
Variable env : option string.
Variable srv : Server.
Variable toLocaleTimeString : string -> string.
Variable toFixed : nat -> Q -> string.
Variable isDragActive : bool.

Ltac tidy_trace := rewrite <- ?app_assoc; cbn [List.app]; rewrite ?drop_app_length.

Ltac project :=
  cbn [fst snd app trace localStorage sessionId agentStatus designPlan
       finalResults isPolling].

Ltac catch_cases e :=
  match goal with
  | |- context [poll_catch e ?w1] =>
      let e' := fresh "e'" in
      destruct (session_not_found e) as [[|]|e'] eqn:Hnf;
      [ rewrite (poll_catch_expired e w1 Hnf)
      | rewrite (poll_catch_other e w1 Hnf)
      | rewrite (poll_catch_throws e e' w1 Hnf) ]
  end.

(** All the ways a firing of the callback can go, with the world each one
    leaves. *)
Ltac tick_cases sid w :=
  let s := fresh "s" in
  let p := fresh "p" in
  let r := fresh "r" in
  let e := fresh "e" in
  destruct (get_status srv sid) as [s|e] eqn:Hs;
  [ destruct (get_plan srv sid) as [p|e] eqn:Hp;
    [ rewrite (pollTick_resolved env srv sid s p w Hs Hp); cbv zeta;
      destruct (String.eqb (status s) "completed") eqn:Hc;
      [ destruct (get_results srv sid) as [r|e] eqn:Hr; [ | catch_cases e ]
      | destruct (String.eqb (status s) "error") eqn:He ]
    | rewrite (pollTick_plan_rejected env srv sid s e w Hs Hp); catch_cases e ]
  | rewrite (pollTick_status_rejected env srv sid e w Hs); catch_cases e ];
  project; tidy_trace.

(** Whatever the backend answers, a firing of the polling callback never
    turns polling on, never sets a session id, touches localStorage only by
    deleting designSessionId, and sends its requests in the fixed order
    status, plan, results, stopping at the first that is not reached. *)
Theorem pollTick_only_winds_down sid w :
  let tick := pollTick env srv sid in
  (isPolling (app (after tick w)) = true -> isPolling (app w) = true) /\
  (sessionId (app (after tick w)) = sessionId (app w) \/
   sessionId (app (after tick w)) = None) /\
  (localStorage (after tick w) = localStorage w \/
   localStorage (after tick w) = delete "designSessionId" (localStorage w)) /\
  (requests_of (events_of tick w) = [status_request env sid] \/
   requests_of (events_of tick w) = [status_request env sid; plan_request env sid] \/
   requests_of (events_of tick w) =
     [status_request env sid; plan_request env sid; results_request env sid]).
Proof.
  intros tick. unfold tick, after, events_of.
  tick_cases sid w;
    (split; [done|]); (split; [by auto|]); (split; [by auto|]);
    first [by left | by right; left | by right; right].
Qed.

Lemma polling_interval_Some (a : AppState) sid :
  polling_interval a = Some sid <->
  sessionId a = Some sid /\ truthy_string sid = true /\ isPolling a = true.
Proof.
  unfold polling_interval. destruct (sessionId a) as [sid'|]; [|split; [done | by intros [[=] _]]].
  destruct (truthy_string sid') eqn:Ht, (isPolling a); cbn; split;
    try (intros [= ->]; done); try done; intros ([= ->] & ? & ?); congruence.
Qed.

Lemma poll_step_idle w srv' :
  polling_interval (app w) = None -> poll_step env srv' w = w.
Proof. intros H. unfold poll_step. by rewrite H. Qed.

(** Once no interval is installed, no firing happens any more. *)
Lemma poll_steps_idle w srvs :
  polling_interval (app w) = None -> poll_steps env srvs w = w.
Proof.
  intros H. induction srvs as [|srv' srvs IH]; [done|].
  cbn [poll_steps]. by rewrite poll_step_idle.
Qed.

Lemma error_status_is_404_spec e :
  error_status_is_404 e = true <-> response_status e = Some 404%Z.
Proof.
  unfold error_status_is_404, response_status.
  destruct e as [[r|]|]; try (split; [done | by intros [=]]).
  rewrite Z.eqb_eq. split; [by intros -> | by intros [=]].
Qed.

(** A failed request with status 404 ends the session whatever its body
    is: the detail is not looked at, so a body whose detail has no
    [includes] method does no harm. *)
Theorem not_found_status_ignores_body sid w e :
  polling_request_fails srv sid e ->
  response_status e = Some 404%Z ->
  let tick := pollTick env srv sid in
  (tick w).1 = Ok tt /\
  sessionId (app (after tick w)) = None /\
  isPolling (app (after tick w)) = false /\
  localStorage (after tick w) = delete "designSessionId" (localStorage w) /\
  polling_interval (app (after tick w)) = None.
Proof.
  intros Hfail H404 tick.
  destruct (failing_tick_enters_catch env srv sid e w Hfail)
    as (w1 & evs & Htick & _ & _ & Hstore & _ & _).
  assert (session_not_found e = Ok true) as Hnf.
  { unfold session_not_found. by rewrite (proj2 (error_status_is_404_spec e) H404). }
  unfold tick, after. rewrite Htick, (poll_catch_expired e w1 Hnf). project.
  by rewrite Hstore.
Qed.

Lemma array_has_not_found xs :
  existsb (fun x => match x with
                    | JStr s => String.eqb s "not found"
                    | _ => false
                    end) xs = true <-> JStr "not found" ∈ xs.
Proof.
  rewrite existsb_exists. split.
  - intros (x & Hin & Hx). destruct x; try discriminate Hx.
    apply String.eqb_eq in Hx as ->. by apply list_elem_of_In.
  - intros Hin. exists (JStr "not found"). split; [by apply list_elem_of_In | done].
Qed.

(** What the callback does with a failed request that is not a 404 and
    whose detail is not a string.  A list is searched for an element equal
    to "not found" (not for a substring).  An object, a number or a boolean
    has no [includes] method: the [catch] block throws a TypeError, and the
    session id, the polling flag and localStorage stay as they were. *)
Theorem untyped_detail_of_failed_request sid w e :
  polling_request_fails srv sid e ->
  response_status e <> Some 404%Z ->
  let tick := pollTick env srv sid in
  (forall xs, error_detail e = Some (JArr xs) ->
     (expired_toast ∈ events_of tick w <-> JStr "not found" ∈ xs)) /\
  (forall v, error_detail e = Some v ->
     (exists props, v = JObj props) \/ (exists q, v = JNum q) \/ (exists b, v = JBool b) ->
     (exists msg, (tick w).1 = Throw (TypeError msg)) /\
     sessionId (app (after tick w)) = sessionId (app w) /\
     isPolling (app (after tick w)) = isPolling (app w) /\
     localStorage (after tick w) = localStorage w).
Proof.
  intros Hfail H404 tick.
  destruct (failing_tick_enters_catch env srv sid e w Hfail)
    as (w1 & evs & Htick & Hsid & Hpoll & Hstore & Htrace & Hquiet).
  assert (error_status_is_404 e = false) as Hnot.
  { destruct (error_status_is_404 e) eqn:H; [|done].
    by apply error_status_is_404_spec in H. }
  unfold tick, after, events_of. rewrite Htick. split.
  - intros xs Hd.
    destruct (existsb (fun x => match x with
                                | JStr s => String.eqb s "not found"
                                | _ => false
                                end) xs) eqn:Hex.
    + assert (session_not_found e = Ok true) as Hnf
        by (unfold session_not_found; rewrite Hnot, Hd; cbn; by rewrite Hex).
      rewrite (poll_catch_expired e w1 Hnf). project. rewrite Htrace. tidy_trace.
      split; [intros _; by apply array_has_not_found|intros _].
      apply elem_of_app. right. apply list_elem_of_lookup. by exists 4%nat.
    + assert (session_not_found e = Ok false) as Hnf
        by (unfold session_not_found; rewrite Hnot, Hd; cbn; by rewrite Hex).
      rewrite (poll_catch_other e w1 Hnf). project. rewrite Htrace. tidy_trace.
      split; [|intros Hin%array_has_not_found; congruence].
      intros [Hin|Hin]%elem_of_app; [done|].
      apply elem_of_cons in Hin as [[=]|Hin]. by apply elem_of_nil in Hin.
  - intros v Hd Hv.
    assert (exists msg, session_not_found e = Throw (TypeError msg)) as [msg Hnf].
    { unfold session_not_found. rewrite Hnot, Hd.
      destruct Hv as [[? ->]|[[? ->]|[? ->]]]; by eexists. }
    rewrite (poll_catch_throws e _ w1 Hnf). project.
    split; [by exists msg | done].
Qed.

(** A firing that fails half-way keeps what it had already fetched: after
    a rejected plan request the new status snapshot is in the state, and
    after a rejected results request the new plan is too; the stored results
    are not touched by a firing that fails. *)
Theorem failed_tick_keeps_fetched_data sid w :
  let tick := pollTick env srv sid in
  (forall s e,
     get_status srv sid = Resolve s -> get_plan srv sid = Reject e ->
     agentStatus (app (after tick w)) = Some s /\
     designPlan (app (after tick w)) = designPlan (app w) /\
     finalResults (app (after tick w)) = finalResults (app w)) /\
  (forall s p e,
     get_status srv sid = Resolve s -> get_plan srv sid = Resolve p ->
     status s = "completed" -> get_results srv sid = Reject e ->
     agentStatus (app (after tick w)) = Some s /\
     designPlan (app (after tick w)) = plan p /\
     finalResults (app (after tick w)) = finalResults (app w)) /\
  (forall e,
     get_status srv sid = Reject e ->
     agentStatus (app (after tick w)) = agentStatus (app w) /\
     designPlan (app (after tick w)) = designPlan (app w) /\
     finalResults (app (after tick w)) = finalResults (app w)).
Proof.
  intros tick. unfold tick, after.
  tick_cases sid w; (split; [|split]); intros; simplify_eq; try done;
    try (rewrite String.eqb_refl in *; discriminate).
Qed.

(** [handleUpload] never throws and leaves localStorage, the status
    snapshot, the plan and the results alone; it sets the session id as soon
    as the upload is accepted, also when the start request is then refused,
    and it sends at most the upload and the start request, in this order. *)
Theorem handleUpload_frame file w :
  let h := handleUpload env srv file in
  (h w).1 = Ok tt /\
  localStorage (after h w) = localStorage w /\
  agentStatus (app (after h w)) = agentStatus (app w) /\
  designPlan (app (after h w)) = designPlan (app w) /\
  finalResults (app (after h w)) = finalResults (app w) /\
  match post_upload srv file with
  | Resolve u =>
      sessionId (app (after h w)) = Some (upload_session_id u) /\
      requests_of (events_of h w) =
        [upload_request env file; start_request env (upload_session_id u)]
  | Reject _ =>
      sessionId (app (after h w)) = sessionId (app w) /\
      requests_of (events_of h w) = [upload_request env file]
  end.
Proof.
  intros h. unfold h, after, events_of.
  destruct (post_upload srv file) as [u|e] eqn:Hu.
  - destruct (post_start srv (upload_session_id u)) as [[]|e] eqn:Hst.
    + rewrite (handleUpload_both_resolved env srv file u w Hu Hst). project. by tidy_trace.
    + rewrite (handleUpload_start_rejected env srv file u e w Hu Hst). project. by tidy_trace.
  - rewrite (handleUpload_upload_rejected env srv file e w Hu). project. by tidy_trace.
Qed.

(** When the upload is accepted and the start of the agent is refused, the
    page is left on the agent screen with polling off: the upload section
    is gone, there is no reset button, and no request is ever sent again by
    the polling effect. *)
Theorem refused_start_strands_the_page file u e w :
  post_upload srv file = Resolve u ->
  post_start srv (upload_session_id u) = Reject e ->
  truthy_string (upload_session_id u) = true ->
  isPolling (app w) = false ->
  finalResults (app w) = None ->
  let w' := after (handleUpload env srv file) w in
  let v := App_render env toLocaleTimeString toFixed isDragActive (app w') in
  sessionId (app w') = Some (upload_session_id u) /\
  polling_interval (app w') = None /\
  has_class "agent-container" v = true /\
  has_class "upload-section" v = false /\
  has_class "reset-button" v = false /\
  (forall srvs, poll_steps env srvs w' = w').
Proof.
  intros Hu Hst Hid Hpoll Hres w' v.
  assert (app w' = {| sessionId := Some (upload_session_id u);
                      agentStatus := agentStatus (app w);
                      designPlan := designPlan (app w);
                      finalResults := None; isPolling := false |}) as Happ.
  { unfold w', after. rewrite (handleUpload_start_rejected env srv file u e w Hu Hst).
    project. by rewrite Hres, Hpoll. }
  assert (polling_interval (app w') = None) as Hidle.
  { rewrite Happ. unfold polling_interval. project. by rewrite Hid. }
  destruct (App_render_landmarks env toLocaleTimeString toFixed isDragActive (app w'))
    as (Hup & Hag & Hreset & _ & _).
  fold v in Hup, Hag, Hreset. rewrite Hup, Hag, Hreset, Happ. cbn. rewrite Hid.
  repeat split; try done. intros srvs. by apply poll_steps_idle.
Qed.

(** When the pipeline reports status 'error', polling stops and the page
    stays on the agent screen without a reset button (there are no
    results): the session id is kept and nothing is requested any more. *)
Theorem error_status_strands_the_page sid s p w :
  polling_interval (app w) = Some sid ->
  finalResults (app w) = None ->
  get_status srv sid = Resolve s ->
  get_plan srv sid = Resolve p ->
  status s = "error" ->
  let w' := poll_step env srv w in
  let v := App_render env toLocaleTimeString toFixed isDragActive (app w') in
  agentStatus (app w') = Some s /\
  sessionId (app w') = Some sid /\
  polling_interval (app w') = None /\
  has_class "agent-container" v = true /\
  has_class "upload-section" v = false /\
  has_class "reset-button" v = false /\
  (forall srvs, poll_steps env srvs w' = w').
Proof.
  intros Hint Hres Hs Hp Herr w' v.
  apply polling_interval_Some in Hint as Hon. destruct Hon as (Hsid & Hid & Hpoll).
  assert (app w' = {| sessionId := Some sid; agentStatus := Some s;
                      designPlan := plan p; finalResults := None;
                      isPolling := false |}) as Happ.
  { unfold w', poll_step, after. rewrite Hint.
    rewrite (pollTick_resolved env srv sid s p w Hs Hp). cbv zeta. rewrite Herr.
    project. by rewrite Hsid, Hres. }
  assert (polling_interval (app w') = None) as Hidle.
  { rewrite Happ. unfold polling_interval. project. by rewrite Hid. }
  destruct (App_render_landmarks env toLocaleTimeString toFixed isDragActive (app w'))
    as (Hup & Hag & Hreset & _ & _).
  fold v in Hup, Hag, Hreset. rewrite Hup, Hag, Hreset, Happ. cbn. rewrite Hid.
  repeat split; try done. intros srvs. by apply poll_steps_idle.
Qed.

Lemma resetAgent_run w :
  exists evs,
    resetAgent env srv w =
      (Ok tt, {| app := initial_state; localStorage := localStorage w;
                 trace := trace w ++ evs ++
                   [ SetSessionId None; SetAgentStatus None; SetDesignPlan "";
                     SetFinalResults None; SetIsPolling false ] |}) /\
    (forall r, Http r ∈ evs ->
       exists sid', sessionId (app w) = Some sid' /\ r = delete_request env sid').
Proof.
  destruct (reset_delete_step env srv (sessionId (app w)) w) as (evs & Hstep & Hev).
  exists evs. split; [|done].
  unfold resetAgent.
  unfold mbind at 1, M_bind at 1, bind at 1, read.
  unfold mbind at 1, M_bind at 1, bind at 1. rewrite Hstep.
  cbv beta iota zeta delta
    [ setSessionId setAgentStatus setDesignPlan setFinalResults setIsPolling
      emit update mbind mret M_bind M_ret bind ret
      app localStorage trace sessionId agentStatus designPlan finalResults
      isPolling fst snd initial_state ].
  by tidy_trace.
Qed.

Lemma resetAgent_without_session w :
  sessionId (app w) = None ->
  resetAgent env srv w =
    (Ok tt, {| app := initial_state; localStorage := localStorage w;
               trace := trace w ++
                 [ SetSessionId None; SetAgentStatus None; SetDesignPlan "";
                   SetFinalResults None; SetIsPolling false ] |}).
Proof.
  intros Hnone. unfold resetAgent.
  unfold mbind at 1, M_bind at 1, bind at 1, read. rewrite Hnone.
  cbv beta iota zeta delta
    [ setSessionId setAgentStatus setDesignPlan setFinalResults setIsPolling
      emit update mbind mret M_bind M_ret bind ret
      app localStorage trace sessionId agentStatus designPlan finalResults
      isPolling fst snd initial_state ].
  by tidy_trace.
Qed.

(** [resetAgent] brings the page back to the upload screen in the state
    [App] started in, does not touch localStorage (designSessionId is
    removed only on expiry), leaves no polling behind, and a second reset
    right after sends no request. *)
Theorem resetAgent_returns_to_upload_screen w :
  let reset := resetAgent env srv in
  let w' := after reset w in
  let v := App_render env toLocaleTimeString toFixed isDragActive (app w') in
  app w' = initial_state /\
  localStorage w' = localStorage w /\
  has_class "upload-section" v = true /\
  has_class "agent-container" v = false /\
  requests_of (events_of reset w') = [] /\
  (forall srvs, poll_steps env srvs w' = w').
Proof.
  intros reset w' v.
  destruct (resetAgent_run w) as (evs & Hrun & _).
  assert (app w' = initial_state) as Happ by (unfold w', reset, after; by rewrite Hrun).
  assert (localStorage w' = localStorage w) as Hls
    by (unfold w', reset, after; by rewrite Hrun).
  split; [done|]. split; [done|].
  destruct (App_render_landmarks env toLocaleTimeString toFixed isDragActive (app w'))
    as (Hup & Hag & _).
  fold v in Hup, Hag. rewrite Hup, Hag, Happ. split; [done|]. split; [done|].
  split.
  - unfold reset, events_of. rewrite (resetAgent_without_session w'); [|by rewrite Happ].
    project. by tidy_trace.
  - intros srvs. apply poll_steps_idle. by rewrite Happ.
Qed.

(** Polling, once installed for a session, ends in exactly three ways: a
    firing that sees status 'completed' and receives the results, a firing
    that sees status 'error', or a failed request that is recognised as an
    unknown session.  After every other firing the interval is still
    installed for the same session. *)
Theorem polling_stops_iff sid w :
  polling_interval (app w) = Some sid ->
  (polling_interval (app (poll_step env srv w)) = None <->
     (exists s p r,
        get_status srv sid = Resolve s /\ get_plan srv sid = Resolve p /\
        get_results srv sid = Resolve r /\ status s = "completed") \/
     (exists s p,
        get_status srv sid = Resolve s /\ get_plan srv sid = Resolve p /\
        status s = "error") \/
     (exists e, polling_request_fails srv sid e /\ session_not_found e = Ok true)) /\
  (polling_interval (app (poll_step env srv w)) = None \/
   polling_interval (app (poll_step env srv w)) = Some sid).
Proof.
  intros Hint.
  apply polling_interval_Some in Hint as Hon. destruct Hon as (Hsid & Hid & Hpoll).
  unfold poll_step, after, polling_request_fails. rewrite Hint.
  tick_cases sid w; unfold polling_interval; project;
    rewrite ?Hsid, ?Hid, ?Hpoll; cbn [andb];
    repeat match goal with
           | H : String.eqb _ _ = true |- _ => apply String.eqb_eq in H
           | H : String.eqb _ _ = false |- _ => apply String.eqb_neq in H
           end;
    (split; [|by auto]); (split; [intros HN | intros HR]);
    try discriminate HN.
  all: try (left; by eauto 10).
  all: try (right; left; by eauto 10).
  all: try (right; right; by eauto 10).
  all: try done.
  all: destruct HR as [(? & ? & ? & ? & ? & ? & ?)|[(? & ? & ? & ? & ?)|(? & Hf & ?)]];
    simplify_eq; try congruence.
  all: destruct Hf as [?|(? & ? & [?|(? & ? & ? & ?)])]; simplify_eq; congruence.
Qed.

Lemma requests_of_app evs1 evs2 :
  requests_of (evs1 ++ evs2) = requests_of evs1 ++ requests_of evs2.
Proof. unfold requests_of. apply omap_app. Qed.

(** A firing against a backend that is still working fetches status and
    plan and leaves the interval installed. *)
Lemma poll_step_in_progress sid srv' w :
  polling_interval (app w) = Some sid ->
  in_progress srv' sid ->
  exists evs,
    polling_interval (app (poll_step env srv' w)) = Some sid /\
    localStorage (poll_step env srv' w) = localStorage w /\
    finalResults (app (poll_step env srv' w)) = finalResults (app w) /\
    trace (poll_step env srv' w) = trace w ++ evs /\
    length (requests_of evs) = 2%nat.
Proof.
  intros Hint (s & p & Hs & Hp & Hc & He).
  apply String.eqb_neq in Hc, He.
  unfold poll_step, after. rewrite Hint.
  rewrite (pollTick_resolved env srv' sid s p w Hs Hp). cbv zeta. rewrite Hc, He.
  project. eexists. split; [|split; [done|split; [done|split; [done|]]]].
  - apply polling_interval_Some in Hint as (Hsid & Hid & Hpoll).
    apply polling_interval_Some. project. done.
  - reflexivity.
Qed.

Lemma poll_steps_in_progress sid srvs w :
  polling_interval (app w) = Some sid ->
  Forall (fun srv' => in_progress srv' sid) srvs ->
  exists evs,
    polling_interval (app (poll_steps env srvs w)) = Some sid /\
    localStorage (poll_steps env srvs w) = localStorage w /\
    finalResults (app (poll_steps env srvs w)) = finalResults (app w) /\
    trace (poll_steps env srvs w) = trace w ++ evs /\
    length (requests_of evs) = (2 * length srvs)%nat.
Proof.
  intros Hint Hall. revert w Hint.
  induction Hall as [|srv' srvs Hsrv _ IH]; intros w Hint.
  - exists []. cbn. by rewrite app_nil_r.
  - destruct (poll_step_in_progress sid srv' w Hint Hsrv)
      as (evs1 & Hint1 & Hls1 & Hres1 & Htr1 & Hlen1).
    destruct (IH _ Hint1) as (evs2 & Hint2 & Hls2 & Hres2 & Htr2 & Hlen2).
    exists (evs1 ++ evs2). cbn [poll_steps].
    rewrite Hint2, Hls2, Hres2, Htr2, Hls1, Hres1, Htr1, requests_of_app, length_app.
    rewrite <- app_assoc. repeat split; try done. cbn [length]. lia.
Qed.

Lemma poll_steps_app srvs1 srvs2 w :
  poll_steps env (srvs1 ++ srvs2) w = poll_steps env srvs2 (poll_steps env srvs1 w).
Proof. revert w. induction srvs1 as [|x srvs1 IH]; intros w; cbn; [done | apply IH]. Qed.

(** The polling loop from start to finish: through any number of firings
    that find the pipeline still working the interval stays installed and
    two requests are sent each time; the first firing that then finds
    status 'completed' sends three, stores the results and stops polling,
    and the page shows the results with the reset button. *)
Theorem polling_runs_until_completed sid srvs last s p r w :
  polling_interval (app w) = Some sid ->
  Forall (fun srv' => in_progress srv' sid) srvs ->
  get_status last sid = Resolve s ->
  get_plan last sid = Resolve p ->
  get_results last sid = Resolve r ->
  status s = "completed" ->
  let w' := poll_steps env (srvs ++ [last]) w in
  let v := App_render env toLocaleTimeString toFixed isDragActive (app w') in
  app w' = {| sessionId := Some sid; agentStatus := Some s; designPlan := plan p;
              finalResults := Some r; isPolling := false |} /\
  localStorage w' = localStorage w /\
  length (requests_of (drop (length (trace w)) (trace w'))) = (2 * length srvs + 3)%nat /\
  has_class "results-section" v = true /\
  has_class "reset-button" v = true /\
  (forall more, poll_steps env more w' = w').
Proof.
  intros Hint Hall Hs Hp Hr Hc w' v.
  destruct (poll_steps_in_progress sid srvs w Hint Hall)
    as (evs & Hint1 & Hls1 & _ & Htr1 & Hlen1).
  apply polling_interval_Some in Hint1 as Hon. destruct Hon as (Hsid & Hid & Hpoll).
  assert (w' =
    {| app := {| sessionId := Some sid; agentStatus := Some s; designPlan := plan p;
                 finalResults := Some r; isPolling := false |};
       localStorage := localStorage w;
       trace := trace w ++ evs ++
         [ Http (status_request env sid); SetAgentStatus (Some s);
           Http (plan_request env sid); SetDesignPlan (plan p);
           Http (results_request env sid); SetFinalResults (Some r);
           SetIsPolling false; Toast ToastSuccess "Design completed!" ] |}) as Hw'.
  { unfold w'. rewrite poll_steps_app. cbn [poll_steps]. unfold poll_step, after.
    rewrite Hint1, (pollTick_resolved env last sid s p _ Hs Hp). cbv zeta.
    rewrite Hc, Hr. cbn [String.eqb Ascii.eqb Bool.eqb]. project.
    by rewrite Hsid, Hls1, Htr1, <- app_assoc. }
  assert (polling_interval (app w') = None) as Hidle.
  { rewrite Hw'. unfold polling_interval. project. by rewrite Hid. }
  destruct (App_render_landmarks env toLocaleTimeString toFixed isDragActive (app w'))
    as (_ & _ & Hreset & Hres & _).
  fold v in Hreset, Hres. rewrite Hreset, Hres.
  split; [by rewrite Hw'|]. split; [by rewrite Hw'|].
  split.
  { rewrite Hw'. project. rewrite drop_app_length, requests_of_app, length_app, Hlen1.
    cbn. lia. }
  rewrite Hw'. project. cbn [truthy_opt_string]. rewrite Hid.
  split; [done|]. split; [done|].
  intros more. rewrite <- Hw'. by apply poll_steps_idle.
Qed.

(** After an accepted upload and an accepted start the interval is
    installed for exactly the session id of the upload response; when that id
    is the empty string no interval is installed although the polling flag
    is set, and the page stays on the upload screen. *)
Theorem accepted_upload_installs_polling file u w :
  post_upload srv file = Resolve u ->
  post_start srv (upload_session_id u) = Resolve tt ->
  let w' := after (handleUpload env srv file) w in
  let v := App_render env toLocaleTimeString toFixed isDragActive (app w') in
  isPolling (app w') = true /\
  polling_interval (app w') =
    (if truthy_string (upload_session_id u) then Some (upload_session_id u) else None) /\
  has_class "agent-container" v = truthy_string (upload_session_id u) /\
  has_class "upload-section" v = negb (truthy_string (upload_session_id u)).
Proof.
  intros Hu Hst w' v.
  destruct (App_render_landmarks env toLocaleTimeString toFixed isDragActive (app w'))
    as (Hup & Hag & _).
  fold v in Hup, Hag. rewrite Hup, Hag.
  unfold w', after. rewrite (handleUpload_both_resolved env srv file u w Hu Hst).
  project. unfold polling_interval. project. cbn [truthy_opt_string].
  by destruct (truthy_string (upload_session_id u)).
Qed.

Lemma elem_of_requests_of r evs : r ∈ requests_of evs <-> Http r ∈ evs.
Proof.
  unfold requests_of. rewrite list_elem_of_omap. split.
  - intros (ev & Hin & Hev). destruct ev; try discriminate Hev. by injection Hev as ->.
  - intros Hin. by exists (Http r).
Qed.

Lemma pollTick_requests sid w :
  let reqs := requests_of (events_of (pollTick env srv sid) w) in
  reqs = [status_request env sid] \/
  reqs = [status_request env sid; plan_request env sid] \/
  reqs = [status_request env sid; plan_request env sid; results_request env sid].
Proof.
  intros reqs. unfold reqs, events_of.
  tick_cases sid w; first [by left | by right; left | by right; right].
Qed.

Lemma API_URL_not_empty : API_URL env <> "".
Proof.
  unfold API_URL. destruct env as [u|]; [|done].
  unfold truthy_string. destruct (String.eqb_spec u ""); cbn; done.
Qed.

(** Every request of the three handlers goes to a path under [/api/] of
    the configured base URL: the polling callback only sends GET requests,
    [handleUpload] only POST requests and [resetAgent] only a DELETE.  The
    base is never empty: without VITE_API_URL, or with an empty one, it is
    http://localhost:8000; the results section builds its image addresses
    from the same base. *)
Theorem requests_target_the_api_base :
  (forall sid w r,
     r ∈ requests_of (events_of (pollTick env srv sid) w) ->
     targets_api env r /\ method r = GET) /\
  (forall file w r,
     r ∈ requests_of (events_of (handleUpload env srv file) w) ->
     targets_api env r /\ method r = POST) /\
  (forall w r,
     r ∈ requests_of (events_of (resetAgent env srv) w) ->
     targets_api env r /\ method r = DELETE) /\
  API_URL env <> "" /\
  (env = None \/ env = Some "" -> API_URL env = "http://localhost:8000") /\
  ResultsSectionView.API_URL env = API_URL env.
Proof.
  split; [|split; [|split; [|split; [apply API_URL_not_empty|split; [|done]]]]].
  - intros sid w r Hin.
    destruct (pollTick_requests sid w) as [H|[H|H]]; cbv zeta in H; rewrite H in Hin;
      repeat (apply elem_of_cons in Hin as [->|Hin]; [split; [|done]|]);
      try (by apply elem_of_nil in Hin).
    all: first [ by exists ("agent/status/" +:+ sid)
               | by exists ("agent/plan/" +:+ sid)
               | by exists ("agent/results/" +:+ sid) ].
  - intros file w r Hin. unfold events_of in Hin.
    destruct (post_upload srv file) as [u|e] eqn:Hu.
    + destruct (post_start srv (upload_session_id u)) as [[]|e] eqn:Hst.
      * rewrite (handleUpload_both_resolved env srv file u w Hu Hst) in Hin.
        revert Hin. project. tidy_trace. cbn. intros Hin.
        repeat (apply elem_of_cons in Hin as [->|Hin]; [split; [|done]|]);
          try (by apply elem_of_nil in Hin).
        all: first [by exists "upload" | by exists ("agent/start/" +:+ upload_session_id u)].
      * rewrite (handleUpload_start_rejected env srv file u e w Hu Hst) in Hin.
        revert Hin. project. tidy_trace. cbn. intros Hin.
        repeat (apply elem_of_cons in Hin as [->|Hin]; [split; [|done]|]);
          try (by apply elem_of_nil in Hin).
        all: first [by exists "upload" | by exists ("agent/start/" +:+ upload_session_id u)].
    + rewrite (handleUpload_upload_rejected env srv file e w Hu) in Hin.
      revert Hin. project. tidy_trace. cbn. intros Hin.
      repeat (apply elem_of_cons in Hin as [->|Hin]; [split; [|done]|]);
        try (by apply elem_of_nil in Hin).
      by exists "upload".
  - intros w r Hin. apply elem_of_requests_of in Hin. unfold events_of in Hin.
    destruct (resetAgent_run w) as (evs & Hrun & Hev). rewrite Hrun in Hin.
    revert Hin. project. tidy_trace. intros [Hin|Hin]%elem_of_app.
    + destruct (Hev r Hin) as (sid' & _ & ->). split; [|done].
      by exists ("agent/" +:+ sid').
    + repeat (apply elem_of_cons in Hin as [[=]|Hin]). by apply elem_of_nil in Hin.
  - intros [->| ->]; reflexivity.
Qed.


End WithServer.

Lemma not_found_status_ignores_body_witness :
  sessionId
    (app (after (pollTick None (Scenarios.rejecting Scenarios.not_found_with_object_detail)
                   "s1") Examples.polling_world)) = None /\
  polling_interval
    (app (after (pollTick None (Scenarios.rejecting Scenarios.not_found_with_object_detail)
                   "s1") Examples.polling_world)) = None.
Proof.
  destruct (not_found_status_ignores_body None
              (Scenarios.rejecting Scenarios.not_found_with_object_detail)
              "s1" Examples.polling_world Scenarios.not_found_with_object_detail)
    as (_ & Hsid & _ & _ & Hint).
  - left. reflexivity.
  - reflexivity.
  - exact (conj Hsid Hint).
Defined.

Lemma untyped_detail_witness :
  expired_toast ∈
    events_of (pollTick None (Scenarios.rejecting Scenarios.list_detail_error) "s1")
      Examples.polling_world.
Proof.
  destruct (untyped_detail_of_failed_request None
              (Scenarios.rejecting Scenarios.list_detail_error)
              "s1" Examples.polling_world Scenarios.list_detail_error)
    as (Harr & _).
  - left. reflexivity.
  - discriminate.
  - apply (Harr [JStr "not found"]); [reflexivity|]. apply list_elem_of_here.
Defined.

Lemma refused_start_witness :
  has_class "reset-button"
    (App_render None (fun ts => ts) (fun _ _ => "0") false
       (app (after (handleUpload None Scenarios.start_refusing_server Scenarios.room_photo)
               Scenarios.fresh_world))) = false /\
  has_class "upload-section"
    (App_render None (fun ts => ts) (fun _ _ => "0") false
       (app (after (handleUpload None Scenarios.start_refusing_server Scenarios.room_photo)
               Scenarios.fresh_world))) = false.
Proof.
  destruct (refused_start_strands_the_page None Scenarios.start_refusing_server
              (fun ts => ts) (fun _ _ => "0") false
              Scenarios.room_photo Scenarios.accepted_upload Examples.internal_error
              Scenarios.fresh_world)
    as (_ & _ & _ & Hup & Hreset & _); try reflexivity.
  exact (conj Hreset Hup).
Defined.

Lemma error_status_witness :
  polling_interval
    (app (poll_step None (Scenarios.answering Scenarios.failed) Examples.polling_world))
    = None /\
  has_class "reset-button"
    (App_render None (fun ts => ts) (fun _ _ => "0") false
       (app (poll_step None (Scenarios.answering Scenarios.failed) Examples.polling_world)))
    = false.
Proof.
  destruct (error_status_strands_the_page None (Scenarios.answering Scenarios.failed)
              (fun ts => ts) (fun _ _ => "0") false
              "s1" Scenarios.failed {| plan := "# Plan"; plan_status := "error" |}
              Examples.polling_world)
    as (_ & _ & Hint & _ & _ & Hreset & _); try reflexivity.
  exact (conj Hint Hreset).
Defined.

Lemma polling_stops_witness :
  polling_interval
    (app (poll_step None (Scenarios.answering Scenarios.analyzing) Examples.polling_world))
    = Some "s1".
Proof.
  destruct (polling_stops_iff None (Scenarios.answering Scenarios.analyzing)
              "s1" Examples.polling_world) as (Hiff & [Hnone|Hsome]).
  - reflexivity.
  - apply Hiff in Hnone as [(s & p & r & Hs & _ & _ & Hc)|[(s & p & Hs & _ & Hc)|(e & Hf & _)]].
    + injection Hs as <-. discriminate Hc.
    + injection Hs as <-. discriminate Hc.
    + destruct Hf as [Hf|(s & Hs & [Hf|(p & Hp & Hc & _)])].
      * discriminate Hf.
      * discriminate Hf.
      * injection Hs as <-. discriminate Hc.
  - exact Hsome.
Defined.

Lemma polling_runs_witness :
  finalResults
    (app (poll_steps None
            ([Scenarios.answering Scenarios.analyzing;
              Scenarios.answering Scenarios.analyzing]
               ++ [Scenarios.answering Examples.finished])
            Examples.polling_world)) = Some Examples.some_results /\
  length
    (requests_of
       (drop (length (trace Examples.polling_world))
          (trace (poll_steps None
                    ([Scenarios.answering Scenarios.analyzing;
                      Scenarios.answering Scenarios.analyzing]
                       ++ [Scenarios.answering Examples.finished])
                    Examples.polling_world)))) = 7%nat.
Proof.
  destruct (polling_runs_until_completed None (fun ts => ts) (fun _ _ => "0") false "s1"
              [Scenarios.answering Scenarios.analyzing;
               Scenarios.answering Scenarios.analyzing]
              (Scenarios.answering Examples.finished)
              Examples.finished {| plan := "# Plan"; plan_status := "completed" |}
              Examples.some_results Examples.polling_world)
    as (Happ & _ & Hlen & _); try reflexivity.
  - repeat constructor; (eexists _, _; repeat split; [reflexivity..|discriminate|discriminate]).
  - split; [by rewrite Happ | exact Hlen].
Defined.

Lemma accepted_upload_witness :
  polling_interval
    (app (after (handleUpload None (Scenarios.answering Scenarios.analyzing)
                   Scenarios.room_photo) Scenarios.fresh_world)) = Some "s1".
Proof.
  destruct (accepted_upload_installs_polling None (Scenarios.answering Scenarios.analyzing)
              (fun ts => ts) (fun _ _ => "0") false
              Scenarios.room_photo Scenarios.accepted_upload Scenarios.fresh_world)
    as (_ & Hint & _); [reflexivity | reflexivity | exact Hint].
Defined.

End SessionFacts.

(** ** Details of the display *)

Module DisplayFacts.
Import JS Api React AgentProgressView ResultsSectionView AppView ViewFacts ScreenFacts.

Lemma Math_round_nearest (q : Q) :
  (q - (1 # 2) < inject_Z (Math_round q))%Q /\ (inject_Z (Math_round q) <= q + (1 # 2))%Q.
Proof.
  unfold Math_round. split; [|apply Qfloor_le].
  pose proof (Qlt_floor (q + (1 # 2))) as H.
  rewrite inject_Z_plus in H. change (inject_Z 1) with 1%Q in H. lra.
Qed.

Section WithLocale.
Variable toLocaleTimeString : string -> string.

(** The percentage next to the progress bar is the progress rounded to the
    nearest integer (halves upwards); for a progress within 0..100 it is an
    integer within 0..100. *)
Theorem progress_text_is_rounded_percentage (st : AgentStatus) :
  (0 <= progress_percentage st)%Q ->
  (progress_percentage st <= 100)%Q ->
  let shown := Math_round (progress_percentage st) in
  children_of (AgentProgress toLocaleTimeString (Some st)) !! 2%nat =
    Some (CElem "div" [className "progress-bar-container"]
            [ CElem "div"
                [ className "progress-bar";
                  ("initial", PObj [("width", PNum 0)]);
                  ("animate", PObj [("width", PPercent (progress_percentage st))]);
                  ("transition", PObj [("duration", PNum (1 # 2))]) ]
                [];
              CElem "span" [className "progress-text"]
                [CNum (inject_Z shown); CText "%"] ]) /\
  (0 <= shown <= 100)%Z /\
  (progress_percentage st - (1 # 2) < inject_Z shown)%Q /\
  (inject_Z shown <= progress_percentage st + (1 # 2))%Q.
Proof.
  intros Hlo Hhi shown. split; [done|].
  destruct (Math_round_nearest (progress_percentage st)) as [H1 H2].
  split; [|by split].
  unfold shown, Math_round. split.
  - change 0%Z with (Qfloor (0 + (1 # 2))). apply Qfloor_resp_le. lra.
  - change 100%Z with (Qfloor (100 + (1 # 2))). apply Qfloor_resp_le. lra.
Qed.

End WithLocale.

Lemma progress_text_witness :
  (0 <= Math_round (67 # 2) <= 100)%Z.
Proof.
  destruct (progress_text_is_rounded_percentage (fun ts => ts)
              (Examples.snapshot "planning" "Planning" [] (67 # 2) [] []))
    as (_ & Hrange & _).
  - discriminate.
  - discriminate.
  - exact Hrange.
Defined.

Lemma emoji_table :
  emoji_child "idle" = CText "💤" /\ emoji_child "analyzing" = CText "🔍" /\
  emoji_child "planning" = CText "📝" /\ emoji_child "shopping" = CText "🛍️" /\
  emoji_child "designing" = CText "🎨" /\ emoji_child "completed" = CText "✅" /\
  emoji_child "error" = CText "❌".
Proof. repeat split; by vm_compute. Qed.

(** The seven states are told apart by their emoji: two different known
    status names never show the same one, and none of them shows the
    hourglass of an unknown status. *)
Theorem known_statuses_have_distinct_emoji (a b : string) :
  a ∈ dom statusEmoji -> b ∈ dom statusEmoji ->
  (emoji_child a = emoji_child b -> a = b) /\ emoji_child a <> CText "⏳".
Proof.
  rewrite !statusEmoji_dom. intros Ha Hb.
  destruct emoji_table as (E1 & E2 & E3 & E4 & E5 & E6 & E7).
  repeat (apply elem_of_cons in Ha as [->|Ha]); try (by apply elem_of_nil in Ha);
    (split; [|rewrite ?E1, ?E2, ?E3, ?E4, ?E5, ?E6, ?E7; discriminate]);
    repeat (apply elem_of_cons in Hb as [->|Hb]); try (by apply elem_of_nil in Hb);
    rewrite ?E1, ?E2, ?E3, ?E4, ?E5, ?E6, ?E7; first [done | discriminate].
Qed.

Lemma known_statuses_witness :
  emoji_child "completed" <> CText "⏳".
Proof.
  refine (proj2 (known_statuses_have_distinct_emoji "completed" "error" _ _));
    apply statusEmoji_dom, list_elem_of_lookup; [by exists 5%nat | by exists 6%nat].
Defined.

Lemma has_class_and_string_shown c o k :
  (forall s, has_class c (k s) = true) ->
  has_class c (and_string o k) = truthy_opt_string o.
Proof.
  intros H. unfold and_string, truthy_opt_string. destruct o as [s|]; [|done].
  destruct (truthy_string s); [apply H | done].
Qed.

Lemma has_class_and_number_shown c o k :
  (forall q, has_class c (k q) = true) ->
  has_class c (and_number o k) = truthy_opt_number o.
Proof.
  intros H. unfold and_number, truthy_opt_number. destruct o as [q|]; [|done].
  destruct (truthy_number q); [apply H | done].
Qed.

(** Replace each conditional child of a card by a variable, keeping what
    is known about the class [c] in it. *)
Ltac abstract_conditionals c :=
  repeat match goal with
  | |- context [and_string ?o ?k] =>
      let H := fresh "H" in
      first
        [ assert (has_class c (and_string o k) = false) as H
            by (apply has_class_and_string; intros; reflexivity)
        | assert (has_class c (and_string o k) = truthy_opt_string o) as H
            by (apply has_class_and_string_shown; intros; reflexivity) ];
      revert H; generalize (and_string o k); intros ? H
  | |- context [and_number ?o ?k] =>
      let H := fresh "H" in
      first
        [ assert (has_class c (and_number o k) = false) as H
            by (apply has_class_and_number; intros; reflexivity)
        | assert (has_class c (and_number o k) = truthy_opt_number o) as H
            by (apply has_class_and_number_shown; intros; reflexivity) ];
      revert H; generalize (and_number o k); intros ? H
  end.

Ltac class_of_card c :=
  unfold furniture_card; abstract_conditionals c; cbn;
  repeat match goal with
         | H : has_class _ _ = _ |- _ => rewrite H; clear H
         end;
  rewrite ?orb_false_r; reflexivity.

Section WithEnvironment.
Variable VITE_API_URL : option string.
Variable toFixed : nat -> Q -> string.

(** Each optional line of a furniture card is there exactly when its field
    is neither null nor empty (for the rating: neither null nor zero); a
    rating of zero leaves the bare number in the card instead; and
    direct_link, store_rating, store_reviews, position and local_image_path
    are not shown at all. *)
Theorem furniture_card_lines index (item : FurnitureItem) :
  let card := furniture_card VITE_API_URL index item in
  has_class "furniture-image" card = truthy_opt_string (image_url item) /\
  has_class "furniture-source" card = truthy_opt_string (source item) /\
  has_class "furniture-category" card = truthy_opt_string (category item) /\
  has_class "furniture-price" card = truthy_opt_string (price item) /\
  has_class "furniture-rating" card = truthy_opt_number (product_rating item) /\
  has_class "furniture-delivery" card = truthy_opt_string (delivery item) /\
  has_class "product-link" card = truthy_opt_string (google_link item) /\
  (forall q, product_rating item = Some q -> truthy_number q = false ->
             children_of card !! 5%nat = Some (CNum q)) /\
  (forall dl sr srv po li,
     furniture_card VITE_API_URL index
       {| title := title item; price := price item; google_link := google_link item;
          direct_link := dl; source := source item; delivery := delivery item;
          product_rating := product_rating item;
          product_reviews := product_reviews item;
          store_rating := sr; store_reviews := srv; category := category item;
          position := po; image_url := image_url item; local_image_path := li |}
     = card).
Proof.
  intros card. unfold card.
  split; [class_of_card "furniture-image"|].
  split; [class_of_card "furniture-source"|].
  split; [class_of_card "furniture-category"|].
  split; [class_of_card "furniture-price"|].
  split; [class_of_card "furniture-rating"|].
  split; [class_of_card "furniture-delivery"|].
  split; [class_of_card "product-link"|].
  split; [|done].
  intros q Hq Hz. cbn. unfold and_number. by rewrite Hq, Hz.
Qed.

Lemma mount_single tag props cs :
  mountable (CElem tag props cs) ->
  exists ds, mount (CElem tag props cs) = Some [DNode tag props ds].
Proof.
  intros [ds Hds]. rewrite mount_CElem in Hds |- *.
  destruct (mount_all cs) as [ds'|]; [by eexists | done].
Qed.

Lemma mount_all_cards (f : nat -> FurnitureItem -> child) (l : list FurnitureItem) :
  (forall i x, exists d, mount (f i x) = Some [d]) ->
  exists ds, mount_all (imap f l) = Some ds /\ length ds = length l.
Proof.
  revert f. induction l as [|x l IH]; intros f H; [by exists []|].
  cbn [imap mount_all]. destruct (H 0%nat x) as [d ->].
  destruct (IH (f ∘ S)) as (ds & -> & Hlen); [intros i y; apply H|].
  exists (d :: ds). split; [done|]. cbn. by rewrite Hlen.
Qed.

(** The results section shows one card per furniture item, and the
    "Items Selected" figure is the number of those cards. *)
Theorem results_grid_has_one_card_per_item (results : FinalResults) :
  let section := ResultsSection VITE_API_URL toFixed results in
  let grid := CArray (imap (furniture_card VITE_API_URL) (furniture_items results)) in
  children_of section !! 3%nat =
    Some (CElem "div" [className "furniture-list"]
            [ CElem "h3" [] [CText "Selected Furniture"];
              CElem "div" [className "furniture-grid"] [grid] ]) /\
  (exists cards,
     mount grid = Some cards /\
     length cards = length (furniture_items results) /\
     exists stats,
       children_of section !! 2%nat = Some stats /\
       children_of stats !! 1%nat =
         Some (CElem "div" [className "stat-item"]
                 [ CElem "h4" [] [CText "Items Selected"];
                   CElem "p" [className "stat-value"]
                     [CNum (inject_Z (Z.of_nat (length cards)))] ])).
Proof.
  intros section grid. split; [done|].
  destruct (mount_all_cards (furniture_card VITE_API_URL) (furniture_items results))
    as (cards & Hcards & Hlen).
  { intros i x. destruct (mount_single _ _ _ (furniture_card_mountable VITE_API_URL i x))
      as [ds Hds]. by eexists. }
  exists cards. unfold grid. rewrite mount_CArray. split; [done|]. split; [done|].
  eexists. split; [reflexivity|]. cbn. by rewrite Hlen.
Qed.

End WithEnvironment.

End DisplayFacts.

(** ** The deployment test script *)

Module DeploymentFacts.
Import TestDeployment.

Lemma strip_trailing_slash_snoc (u : string) :
  strip_trailing_slash (u +:+ "/") = u.
Proof.
  induction u as [|c u IH]; [done|].
  change (String c u +:+ "/") with (String c (u +:+ "/")).
  cbn [strip_trailing_slash]. rewrite IH.
  destruct u; reflexivity.
Qed.

Lemma strip_trailing_slash_cases (s : string) :
  (exists u, s = u +:+ "/" /\ strip_trailing_slash s = u) \/
  ((forall u, s <> u +:+ "/") /\ strip_trailing_slash s = s).
Proof.
  induction s as [|c s IH].
  - right. split; [|done]. intros [|? [|]]; discriminate.
  - destruct s as [|d s].
    + cbn [strip_trailing_slash]. destruct (Ascii.eqb_spec c "/") as [->|Hne].
      * left. by exists "".
      * right. split; [|done]. intros [|c' [|]]; try discriminate. intros [= ->]. done.
    + destruct IH as [(u & Hu & Hstrip)|(Hno & Hstrip)].
      * left. exists (String c u). split.
        -- change (String c u +:+ "/") with (String c (u +:+ "/")). by rewrite <- Hu.
        -- change (strip_trailing_slash (String c (String d s)))
             with (String c (strip_trailing_slash (String d s))). by rewrite Hstrip.
      * right. split.
        -- intros [|c' u]; [discriminate|].
           change (String c' u +:+ "/") with (String c' (u +:+ "/")).
           intros [= -> Hs]. by apply (Hno u).
        -- change (strip_trailing_slash (String c (String d s)))
             with (String c (strip_trailing_slash (String d s))). by rewrite Hstrip.
Qed.

(** The script removes exactly one trailing slash from the backend URL
    (none when there is none, and of two only the last), and probes the
    documentation and health endpoints under the result; an endpoint passes
    only with HTTP code 200. *)
Theorem backend_url_loses_one_trailing_slash (url : string) :
  ((exists u, url = u +:+ "/" /\ strip_trailing_slash url = u) \/
   ((forall u, url <> u +:+ "/") /\ strip_trailing_slash url = url)) /\
  strip_trailing_slash (url +:+ "//") = url +:+ "/" /\
  probed_urls (url +:+ "/") = [url +:+ "/docs"; url +:+ "/api/health"] /\
  (forall code, test_endpoint code = true <-> code = "200").
Proof.
  split; [apply strip_trailing_slash_cases|].
  split.
  { replace (url +:+ "//") with ((url +:+ "/") +:+ "/").
    - apply strip_trailing_slash_snoc.
    - induction url as [|c url IH]; [done|].
      change (String c url +:+ "//") with (String c (url +:+ "//")).
      by rewrite <- IH. }
  split; [unfold probed_urls; by rewrite strip_trailing_slash_snoc|].
  intros code. apply String.eqb_eq.
Qed.

End DeploymentFacts.
